(** * Screen recorder: audio mixing, frame compositing, recording session, trim

    A shallow embedding of the capture pipeline of the recorder:
    - [mergeAudioStreams], [formatTime] and [VideoCompositor]
      (utils/streamUtils),
    - the recording session of the [App] component ([startRecording],
      the recorder's [ondataavailable], [onstop] and [onerror] handlers,
      pause, resume, stop and the camera switch),
    - the trim editor of the [Preview] component ([handleLoadedMetadata],
      [handleTimeUpdate], [saveTrim], [handleDrag], [cancelEdit]),
    - the dragging and clamping of the floating widgets.

    Browser objects are modelled by what the code observes of them: a media
    stream is its list of tracks, a blob is its bytes and type, and the
    outcome of every awaited browser call is an input of the model. *)

From Stdlib Require Import QArith Qminmax Lqa.
From Stdlib Require Import List String Bool ZArith NArith Arith Lia.
From Stdlib Require Import Qround DecimalString.
Import ListNotations.

(** ** JavaScript numbers

    A JavaScript [number] as the code uses it: a finite value, one of the two
    infinities, or NaN.  Finite values are exact rationals: rounding and the
    sign of zero are not modelled. *)
Module JSNum.

Local Open Scope Q_scope.

Inductive num : Type :=
| Fin (q : Q)
| PInf
| NInf
| NaN.

Definition ofZ (z : Z) : num := Fin (inject_Z z).
Definition ofN (n : N) : num := Fin (inject_Z (Z.of_N n)).

(** Sign of an infinite product or quotient, from a finite factor. *)
Definition signed (q : Q) (pos neg : num) : num :=
  if Qeq_bool q 0 then NaN else if Qle_bool 0 q then pos else neg.

Definition jneg (a : num) : num :=
  match a with
  | Fin x => Fin (- x)
  | PInf => NInf
  | NInf => PInf
  | NaN => NaN
  end.

Definition jadd (a b : num) : num :=
  match a, b with
  | NaN, _ | _, NaN => NaN
  | Fin x, Fin y => Fin (x + y)
  | PInf, NInf | NInf, PInf => NaN
  | PInf, _ | _, PInf => PInf
  | NInf, _ | _, NInf => NInf
  end.

Definition jsub (a b : num) : num := jadd a (jneg b).

Definition jmul (a b : num) : num :=
  match a, b with
  | NaN, _ | _, NaN => NaN
  | Fin x, Fin y => Fin (x * y)
  | Fin x, PInf | PInf, Fin x => signed x PInf NInf
  | Fin x, NInf | NInf, Fin x => signed x NInf PInf
  | PInf, PInf | NInf, NInf => PInf
  | PInf, NInf | NInf, PInf => NInf
  end.

Definition jdiv (a b : num) : num :=
  match a, b with
  | NaN, _ | _, NaN => NaN
  | Fin x, Fin y => if Qeq_bool y 0 then signed x PInf NInf else Fin (x / y)
  | Fin _, _ => Fin 0
  | PInf, Fin y => if Qle_bool 0 y then PInf else NInf
  | NInf, Fin y => if Qle_bool 0 y then NInf else PInf
  | _, _ => NaN
  end.

(** [a >= b]: false as soon as one side is NaN. *)
Definition jge (a b : num) : bool :=
  match a, b with
  | NaN, _ | _, NaN => false
  | Fin x, Fin y => Qle_bool y x
  | PInf, _ => true
  | _, NInf => true
  | _, _ => false
  end.

(** [Math.min] and [Math.max]: NaN as soon as one argument is NaN. *)
Definition jmin (a b : num) : num :=
  match a, b with
  | NaN, _ | _, NaN => NaN
  | Fin x, Fin y => Fin (Qmin x y)
  | NInf, _ | _, NInf => NInf
  | PInf, c | c, PInf => c
  end.

Definition jmax (a b : num) : num :=
  match a, b with
  | NaN, _ | _, NaN => NaN
  | Fin x, Fin y => Fin (Qmax x y)
  | PInf, _ | _, PInf => PInf
  | NInf, c | c, NInf => c
  end.

(** Truthiness of a number: everything but zero and NaN. *)
Definition truthy (a : num) : bool :=
  match a with
  | Fin x => negb (Qeq_bool x 0)
  | PInf | NInf => true
  | NaN => false
  end.

(** [a || b] on numbers. *)
Definition jor (a b : num) : num := if truthy a then a else b.

(** [Number.isFinite]. *)
Definition isFinite (a : num) : bool :=
  match a with Fin _ => true | _ => false end.

(** [a === 0]. *)
Definition isZero (a : num) : bool :=
  match a with Fin x => Qeq_bool x 0 | _ => false end.

(** Equality of numbers up to the representation of a rational. *)
Definition num_eq (a b : num) : Prop :=
  match a, b with
  | Fin x, Fin y => x == y
  | PInf, PInf | NInf, NInf | NaN, NaN => True
  | _, _ => False
  end.

End JSNum.

Declare Scope js_scope.
Delimit Scope js_scope with js.
Infix "+" := JSNum.jadd : js_scope.
Infix "-" := JSNum.jsub : js_scope.
Infix "*" := JSNum.jmul : js_scope.
Infix "/" := JSNum.jdiv : js_scope.
Infix "=~" := JSNum.num_eq (at level 70, no associativity).

(** ** The video compositor (class [VideoCompositor]) *)
Module Compositor.

Import JSNum.

Inductive VideoElement : Type := screenVideo | cameraVideo.

(** Calls made on the 2D context of the canvas.  An arc always runs from
    angle 0 to [Math.PI * 2]: only its centre and radius are kept. *)
Inductive CanvasOp : Type :=
| drawImage (src : VideoElement) (dx dy dw dh : num)
| save
| beginPath
| arc (cx cy r : num)
| clip
| translate (x y : num)
| scale (sx sy : num)
| restore
| lineWidth (w : num)
| strokeStyle (s : string)
| stroke.

(** What one call of [draw] does to the outside, in program order. *)
Inductive Effect : Type :=
| Resize (w h : N)
| Call (op : CanvasOp)
| GetOverlayPos
| RequestAnimationFrame.

(** What [draw] reads from the browser during one tick. *)
Record Tick : Type := {
  videoWidth  : N;          (* screenVideo.videoWidth *)
  videoHeight : N;          (* screenVideo.videoHeight *)
  innerWidth  : Z;          (* window.innerWidth *)
  innerHeight : Z;          (* window.innerHeight *)
  overlayPos  : num * num;  (* what getOverlayPos() returns *)
  frameId     : nat         (* what requestAnimationFrame returns *)
}.

Inductive CanvasRenderingContext2D : Type := Context2D.

Record VideoCompositor : Type := {
  canvasWidth  : N;
  canvasHeight : N;
  ctx          : option CanvasRenderingContext2D;
  animationId  : nat
}.

(** The footprint of the camera bubble in the page, in CSS pixels. *)
Definition bubbleFootprint : num := Fin 192.

(** The overlay part of [draw]: everything after the screen was drawn. *)
Definition drawOverlay (t : Tick) : list Effect :=
  let width := ofN (videoWidth t) in
  let height := ofN (videoHeight t) in
  let pos := overlayPos t in
  let scaleX := (width / ofZ (innerWidth t))%js in
  let scaleY := (height / ofZ (innerHeight t))%js in
  let safeScale := jor scaleX (Fin 1) in
  let bubbleSize := (bubbleFootprint * safeScale)%js in
  let x := (fst pos * scaleX)%js in
  let y := (snd pos * scaleY)%js in
  let half := (bubbleSize / Fin 2)%js in
  [ GetOverlayPos;
    Call save;
    Call beginPath;
    Call (arc (x + half)%js (y + half)%js half);
    Call clip;
    Call (translate (x + bubbleSize)%js y);
    Call (scale (Fin (-1)) (Fin 1));
    Call (drawImage cameraVideo (Fin 0) (Fin 0) bubbleSize bubbleSize);
    Call restore;
    Call beginPath;
    Call (arc (x + half)%js (y + half)%js half);
    Call (lineWidth (Fin 4 * safeScale)%js);
    Call (strokeStyle "rgba(255, 255, 255, 0.2)");
    Call stroke ].

(** One call of the closure [draw] of [VideoCompositor.start]. *)
Definition draw (t : Tick) (c : VideoCompositor) : VideoCompositor * list Effect :=
  match ctx c with
  | None => (c, [])
  | Some _ =>
    let width := videoWidth t in
    let height := videoHeight t in
    let known := negb (N.eqb width 0) && negb (N.eqb height 0) in
    let resize :=
      known && (negb (N.eqb (canvasWidth c) width)
                || negb (N.eqb (canvasHeight c) height)) in
    let c1 :=
      if resize
      then {| canvasWidth := width; canvasHeight := height;
              ctx := ctx c; animationId := animationId c |}
      else c in
    let drawn :=
      if known
      then Call (drawImage screenVideo (Fin 0) (Fin 0) (ofN width) (ofN height))
           :: drawOverlay t
      else [] in
    ({| canvasWidth := canvasWidth c1; canvasHeight := canvasHeight c1;
        ctx := ctx c1; animationId := frameId t |},
     (if resize then [Resize width height] else [])
       ++ drawn ++ [RequestAnimationFrame])
  end.

(** The calls that reach the canvas context, and the circles among them. *)
Definition canvasCalls (es : list Effect) : list CanvasOp :=
  flat_map (fun e => match e with Call op => [op] | _ => [] end) es.

Definition circles (es : list Effect) : list (num * num * num) :=
  flat_map (fun op => match op with arc cx cy r => [(cx, cy, r)] | _ => [] end)
           (canvasCalls es).

End Compositor.

(** ** Media streams, tracks and browser errors *)
Module Media.

Inductive TrackKind : Type := video | audio.

(** A track is an object with an identity: the same track can sit in several
    streams, and stopping it through one of them stops it in all of them. *)
Record MediaStreamTrack : Type := {
  tid  : nat;
  kind : TrackKind
}.

(** A stream is the list of its tracks. *)
Definition MediaStream : Type := list MediaStreamTrack.

Definition isVideo (t : MediaStreamTrack) : bool :=
  match kind t with video => true | audio => false end.

Definition isAudio (t : MediaStreamTrack) : bool :=
  match kind t with audio => true | video => false end.

Definition getTracks (s : MediaStream) : list MediaStreamTrack := s.
Definition getVideoTracks (s : MediaStream) : list MediaStreamTrack := filter isVideo s.
Definition getAudioTracks (s : MediaStream) : list MediaStreamTrack := filter isAudio s.

(** A thrown value or the reason of a rejected promise. *)
Record JsError : Type := {
  name    : string;
  message : string
}.

(** The outcome of a call that can throw, or of an awaited promise. *)
Inductive Exc (A : Type) : Type :=
| Ok (a : A)
| Throw (e : JsError).

Arguments Ok {A} a.
Arguments Throw {A} e.

End Media.

(** ** The audio mixer ([mergeAudioStreams]) *)
Module AudioMix.

Import Media.
Local Open Scope string_scope.
Local Open Scope list_scope.

(** The audio context as the mixer sees it. *)
Record AudioContext : Type := {
  suspended     : bool;                           (* ctx.state === 'suspended' *)
  resumeRejects : bool;                           (* ctx.resume() rejects *)
  sourceError   : MediaStream -> option JsError;  (* a source that cannot be made or connected *)
  destination   : MediaStream                     (* dest.stream *)
}.

(** The graph built so far: the streams connected to [dest], in order, and
    the messages given to [console.warn]. *)
Record Graph : Type := {
  connected : list MediaStream;
  warnings  : list string
}.

(** [ctx.createMediaStreamSource(s)]: the Web Audio API refuses a stream
    without an audio track. *)
Definition createMediaStreamSource (ctx : AudioContext) (s : MediaStream)
  : Exc MediaStream :=
  match getAudioTracks s with
  | [] => Throw {| name := "InvalidStateError"; message := "no audio track" |}
  | _ :: _ =>
    match sourceError ctx s with
    | Some e => Throw e
    | None => Ok s
    end
  end.

(** [try { ctx.createMediaStreamSource(s).connect(dest) } catch (e) { console.warn(w) }] *)
Definition tryConnect (ctx : AudioContext) (s : MediaStream) (w : string)
  (g : Graph) : Graph :=
  match createMediaStreamSource ctx s with
  | Ok source => {| connected := connected g ++ [source]; warnings := warnings g |}
  | Throw _ => {| connected := connected g; warnings := warnings g ++ [w] |}
  end.

Definition mergeAudioStreams (ctx : AudioContext)
  (desktopStream : MediaStream) (voiceStream : option MediaStream)
  : MediaStream * Graph :=
  let g0 :=
    {| connected := [];
       warnings := if suspended ctx && resumeRejects ctx
                   then ["Failed to resume AudioContext:"] else [] |} in
  let g1 :=
    if (0 <? List.length (getAudioTracks desktopStream))%nat
    then tryConnect ctx desktopStream "Failed to connect desktop audio:" g0
    else g0 in
  let g2 :=
    match voiceStream with
    | Some voice =>
      if (0 <? List.length (getAudioTracks voice))%nat
      then tryConnect ctx voice "Failed to connect voice audio:" g1
      else g1
    | None => g1
    end in
  let tracks :=
    getVideoTracks desktopStream ++ getAudioTracks (destination ctx) in
  (tracks, g2).

End AudioMix.

(** ** Shared types ([types.ts]) and blobs *)
Module Types.

Import JSNum.
Local Open Scope list_scope.

Inductive RecorderState : Type := IDLE | RECORDING | PAUSED | REVIEW.

Record RecorderSettings : Type := {
  showCamera        : bool;
  enableMic         : bool;
  enableSystemAudio : bool
}.

(** A blob is an immutable run of bytes with a type. *)
Record Blob : Type := {
  bytes : list Byte.byte;
  type  : string
}.

Definition size (b : Blob) : nat := List.length (bytes b).

(** [new Blob(parts, { type })] *)
Definition newBlob (parts : list Blob) (ty : string) : Blob :=
  {| bytes := flat_map bytes parts; type := ty |}.

(** A finished recording; [duration] is in milliseconds. *)
Record RecordedMedia : Type := {
  blob      : Blob;
  url       : string;
  duration  : num;
  timestamp : Z
}.

End Types.

(** ** The recording session (component [App]) *)
Module Recorder.

Import Media AudioMix Types.
Local Open Scope string_scope.
Local Open Scope list_scope.

(** The two entries of [translations[lang]] that the session shows. *)
Record Translations : Type := {
  saveSuccess  : string;
  errorGeneric : string
}.

Record MediaRecorder : Type := {
  stream   : MediaStream;
  mimeType : string
}.

Inductive FileSystemWritableFileStream : Type := Writable.

(** What the session does to the browser, in program order. *)
Inductive Effect : Type :=
| GetDisplayMedia (withAudio : bool)
| ShowSaveFilePicker
| GetUserMediaMic
| GetUserMediaCamera
| StopTrack (tr : MediaStreamTrack)
| NewMediaRecorder (s : MediaStream) (mime : string)
| StartRecorder (timeslice : nat)
| Write (b : Blob) (ok : bool)
| Close (ok : bool)
| Download (backup : bool) (b : Blob)
| SetInterval (id : nat)
| ClearInterval (id : nat)
| Console (msg : string).

(** The React state and the refs of the component, with the trace of what it
    did so far. *)
Record App : Type := {
  state             : RecorderState;
  settings          : RecorderSettings;
  translations      : Translations;
  cameraStream      : option MediaStream;
  timer             : nat;
  error             : option string;
  notification      : option string;
  isSelecting       : bool;
  mediaRecorderRef  : option MediaRecorder;
  chunksRef         : list Blob;
  timerIntervalRef  : option nat;
  streamRef         : option MediaStream;
  writableStreamRef : option FileSystemWritableFileStream;
  trace             : list Effect
}.

Definition setState v (a : App) : App :=
  let 'Build_App _ b c d e f g h i j k l m n := a in Build_App v b c d e f g h i j k l m n.
Definition setSettings v (a : App) : App :=
  let 'Build_App x _ c d e f g h i j k l m n := a in Build_App x v c d e f g h i j k l m n.
Definition setCameraStream v (a : App) : App :=
  let 'Build_App x b c _ e f g h i j k l m n := a in Build_App x b c v e f g h i j k l m n.
Definition setTimer v (a : App) : App :=
  let 'Build_App x b c d _ f g h i j k l m n := a in Build_App x b c d v f g h i j k l m n.
Definition setError v (a : App) : App :=
  let 'Build_App x b c d e _ g h i j k l m n := a in Build_App x b c d e v g h i j k l m n.
Definition setNotification v (a : App) : App :=
  let 'Build_App x b c d e f _ h i j k l m n := a in Build_App x b c d e f v h i j k l m n.
Definition setIsSelecting v (a : App) : App :=
  let 'Build_App x b c d e f g _ i j k l m n := a in Build_App x b c d e f g v i j k l m n.
Definition setMediaRecorderRef v (a : App) : App :=
  let 'Build_App x b c d e f g h _ j k l m n := a in Build_App x b c d e f g h v j k l m n.
Definition setChunksRef v (a : App) : App :=
  let 'Build_App x b c d e f g h i _ k l m n := a in Build_App x b c d e f g h i v k l m n.
Definition setTimerIntervalRef v (a : App) : App :=
  let 'Build_App x b c d e f g h i j _ l m n := a in Build_App x b c d e f g h i j v l m n.
Definition setStreamRef v (a : App) : App :=
  let 'Build_App x b c d e f g h i j k _ m n := a in Build_App x b c d e f g h i j k v m n.
Definition setWritableStreamRef v (a : App) : App :=
  let 'Build_App x b c d e f g h i j k l _ n := a in Build_App x b c d e f g h i j k l v n.

(** Append effects to the trace. *)
Definition emit (es : list Effect) (a : App) : App :=
  let 'Build_App x b c d e f g h i j k l m n := a in
  Build_App x b c d e f g h i j k l m (n ++ es).

(** [s.getTracks().forEach(track => track.stop())] *)
Definition stopTracks (s : MediaStream) (a : App) : App :=
  emit (map StopTrack (getTracks s)) a.

(** [stopAllStreams], with the [cameraStream] its closure holds. *)
Definition stopAllStreams (camera : option MediaStream) (a : App) : App :=
  let a1 := match streamRef a with Some s => stopTracks s a | None => a end in
  let a2 := match camera with Some s => stopTracks s a1 | None => a1 end in
  match timerIntervalRef a2 with
  | Some id => emit [ClearInterval id] a2
  | None => a2
  end.

(** Everything the browser answers while [startRecording] runs. *)
Record StartEnv : Type := {
  displayMedia       : Exc MediaStream;                   (* getDisplayMedia *)
  hasSaveFilePicker  : bool;                              (* 'showSaveFilePicker' in window *)
  saveTarget         : Exc FileSystemWritableFileStream;  (* showSaveFilePicker, createWritable *)
  micMedia           : Exc MediaStream;                   (* getUserMedia({ audio }) *)
  audioContext       : AudioContext;
  endedTracks        : list nat;                          (* tracks ended by the user or the system *)
  isTypeSupported    : string -> bool;
  recorderCtorError  : option JsError;                    (* new MediaRecorder throws *)
  recorderStartError : option JsError;                    (* recorder.start throws *)
  cameraMedia        : Exc MediaStream;                   (* getUserMedia({ video }) *)
  intervalId         : nat                                (* what setInterval returns *)
}.

(** Whether [stop()] was called on the track. *)
Definition stopped (tr : list Effect) (x : MediaStreamTrack) : bool :=
  existsb (fun e => match e with StopTrack y => Nat.eqb (tid y) (tid x) | _ => false end) tr.

(** [track.readyState === 'live'] *)
Definition live (env : StartEnv) (a : App) (x : MediaStreamTrack) : bool :=
  negb (existsb (Nat.eqb (tid x)) (endedTracks env)) && negb (stopped (trace a) x).

(** [stream.active]: at least one track is live. *)
Definition active (env : StartEnv) (a : App) (s : MediaStream) : bool :=
  existsb (live env a) s.

Definition mimeTypes : list string :=
  [ "video/webm;codecs=vp9,opus";
    "video/webm;codecs=vp8,opus";
    "video/webm";
    "video/mp4" ].

Definition getSupportedMimeType (env : StartEnv) : string :=
  match find (isTypeSupported env) mimeTypes with
  | Some ty => ty
  | None => "video/webm"
  end.

(** [s.includes(sub)] *)
Definition includes (s sub : string) : bool :=
  match String.index 0 sub s with Some _ => true | None => false end.

Definition initializeCamera (env : StartEnv) (a : App) : App :=
  let a := emit [GetUserMediaCamera] a in
  match cameraMedia env with
  | Ok s => setCameraStream (Some s) a
  | Throw _ =>
    let st := settings a in
    setSettings {| showCamera := false; enableMic := enableMic st;
                   enableSystemAudio := enableSystemAudio st |}
                (emit [Console "Camera access denied or cancelled:"] a)
  end.

Definition startTimer (env : StartEnv) (a : App) : App :=
  let a1 := match timerIntervalRef a with
            | Some id => emit [ClearInterval id] a
            | None => a
            end in
  setTimerIntervalRef (Some (intervalId env)) (emit [SetInterval (intervalId env)] a1).

(** The [catch] block of [startRecording]. *)
Definition catchStart (displayStream : option MediaStream) (err : JsError)
  (a : App) : App :=
  let a1 := match displayStream with Some s => stopTracks s a | None => a end in
  let a2 := setIsSelecting false a1 in
  if String.eqb (name err) "NotAllowedError"
     || String.eqb (name err) "PermissionDeniedError"
     || includes (message err) "Permission denied"
     || includes (message err) "user denied"
  then emit [Console "Recording cancelled by user"] a2
  else setError (Some (errorGeneric (translations a2)))
                (emit [Console "Error starting recording:"] a2).

(** Where a step of [startRecording] leaves the function. *)
Inductive Flow : Type :=
| Return (a : App)
| Continue (a : App).

(** Step 2: ask for the save path. *)
Definition setupFileHandle (env : StartEnv) (displayStream : MediaStream)
  (a : App) : Flow :=
  if hasSaveFilePicker env then
    let a := emit [ShowSaveFilePicker] a in
    match saveTarget env with
    | Ok w => Continue (setWritableStreamRef (Some w) a)
    | Throw e =>
      if String.eqb (name e) "AbortError"
      then Return (stopTracks displayStream
                     (emit [Console "Save dialog cancelled by user."] a))
      else Continue (emit [Console "Direct save not available:"] a)
    end
  else Continue a.

(** Step 3: the microphone, if enabled. *)
Definition acquireMic (env : StartEnv) (a : App) : option MediaStream * App :=
  if enableMic (settings a) then
    let a := emit [GetUserMediaMic] a in
    match micMedia env with
    | Ok s => (Some s, a)
    | Throw _ => (None, emit [Console "Mic permission failed, proceeding without mic"] a)
    end
  else (None, a).

(** Steps 4 and 5: mix the audio and set the recorder up. *)
Definition setupRecorder (env : StartEnv) (displayStream : MediaStream)
  (micStream : option MediaStream) (a0 : App) : App :=
  let '(combinedStream, graph) :=
    mergeAudioStreams (audioContext env) displayStream micStream in
  let a := setStreamRef (Some combinedStream) (emit (map Console (warnings graph)) a0) in
  let selectedMimeType := getSupportedMimeType env in
  if negb (active env a combinedStream)
  then emit [Console "Stream inactive before start (user stopped sharing?)"] a
  else
    match recorderCtorError env with
    | Some err => catchStart (Some displayStream) err a
    | None =>
      let recorder := {| stream := combinedStream; mimeType := selectedMimeType |} in
      let a := emit [NewMediaRecorder combinedStream selectedMimeType] a in
      match recorderStartError env with
      | Some err => catchStart (Some displayStream) err a
      | None =>
        let a := setMediaRecorderRef (Some recorder) (emit [StartRecorder 1000] a) in
        let a := startTimer env (setTimer 0 a) in
        let a := setState RECORDING a in
        if showCamera (settings a0)
           && match cameraStream a0 with Some _ => false | None => true end
        then initializeCamera env a
        else a
      end
    end.

Definition startRecording (env : StartEnv) (a0 : App) : App :=
  let a := setIsSelecting true
             (setChunksRef [] (setWritableStreamRef None (setError None a0))) in
  let a := emit [GetDisplayMedia (enableSystemAudio (settings a))] a in
  match displayMedia env with
  | Throw err => catchStart None err a
  | Ok displayStream =>
    let a := setIsSelecting false a in
    match getVideoTracks displayStream with
    | [] =>
      (* getVideoTracks()[0] is undefined: the assignment of onended throws *)
      catchStart (Some displayStream)
        {| name := "TypeError"; message := "Cannot set properties of undefined" |} a
    | _ :: _ =>
      match setupFileHandle env displayStream a with
      | Return a => a
      | Continue a =>
        let '(micStream, a) := acquireMic env a in
        setupRecorder env displayStream micStream a
      end
    end
  end.

(** A [dataavailable] event, with what [write] answers if it is called. *)
Record BlobEvent : Type := {
  data         : Blob;
  writeRejects : bool
}.

(** [recorder.ondataavailable] *)
Definition ondataavailable (e : BlobEvent) (a : App) : App :=
  if (0 <? size (data e))%nat then
    match writableStreamRef a with
    | Some _ =>
      if writeRejects e
      then setChunksRef (chunksRef a ++ [data e])
             (emit [Write (data e) false; Console "Write error:"] a)
      else emit [Write (data e) true] a
    | None => setChunksRef (chunksRef a ++ [data e]) a
    end
  else a.

(** What the closure [recorder.onstop] holds from the call of
    [startRecording] that made it. *)
Record Closure : Type := {
  selectedMimeType : string;
  closedCamera     : option MediaStream
}.

(** [recorder.onstop]; [closeRejects] is what [close()] answers if called. *)
Definition onstop (cl : Closure) (closeRejects : bool) (a : App) : App :=
  let saved :=
    match writableStreamRef a with
    | Some _ =>
      if closeRejects then
        let a := emit [Close false; Console "Error saving file:"] a in
        match chunksRef a with
        | [] => a
        | _ :: _ => emit [Download true (newBlob (chunksRef a) (selectedMimeType cl))] a
        end
      else
        setNotification (Some (saveSuccess (translations a)))
          (setWritableStreamRef None (emit [Close true] a))
    | None =>
      match chunksRef a with
      | [] => a
      | _ :: _ =>
        setNotification (Some (saveSuccess (translations a)))
          (emit [Download false (newBlob (chunksRef a) (selectedMimeType cl))] a)
      end
    end in
  setIsSelecting false
    (setTimer 0 (stopAllStreams (closedCamera cl) (setState IDLE saved))).

(** The chunk events of a session, then its stop. *)
Definition deliver (evs : list BlobEvent) (a : App) : App :=
  fold_left (fun acc e => ondataavailable e acc) evs a.

Definition session (cl : Closure) (evs : list BlobEvent) (closeRejects : bool)
  (a : App) : App :=
  onstop cl closeRejects (deliver evs a).

(** What reached the disk target: the chunks whose write was tried, and those
    whose write went through. *)
Definition routedToDisk (tr : list Effect) : list Blob :=
  flat_map (fun e => match e with Write b _ => [b] | _ => [] end) tr.

Definition written (tr : list Effect) : list Blob :=
  flat_map (fun e => match e with Write b true => [b] | _ => [] end) tr.

(** The finalized artifact: the file on disk once it was closed, or the blob
    handed to the download link. *)
Inductive Artifact : Type :=
| DiskFile (chunks : list Blob)
| Downloaded (backup : bool) (b : Blob).

Definition artifactOf (disk : list Blob) (e : Effect) : list Artifact :=
  match e with
  | Close true => [DiskFile disk]
  | Download k b => [Downloaded k b]
  | _ => []
  end.

Definition artifacts (tr : list Effect) : list Artifact :=
  flat_map (artifactOf (written tr)) tr.

Definition nonEmpty (evs : list BlobEvent) : list Blob :=
  filter (fun b => (0 <? size b)%nat) (map data evs).

(** The non-empty chunks of a session whose write was refused, and those
    whose write went through, in arrival order. *)
Definition keptInMemory (evs : list BlobEvent) : list Blob :=
  map data (filter (fun e => (0 <? size (data e))%nat && writeRejects e) evs).

Definition keptOnDisk (evs : list BlobEvent) : list Blob :=
  map data (filter (fun e => (0 <? size (data e))%nat && negb (writeRejects e)) evs).

(** No chunk was written, no file closed and no blob handed out yet. *)
Definition quiet (tr : list Effect) : bool :=
  forallb (fun e => match e with
                    | Write _ _ | Close _ | Download _ _ => false
                    | _ => true
                    end) tr.

(** [l] is [m] with some elements left out, the order kept. *)
Inductive subseq {A : Type} : list A -> list A -> Prop :=
| subseq_nil : subseq [] []
| subseq_skip x l m : subseq l m -> subseq l (x :: m)
| subseq_take x l m : subseq l m -> subseq (x :: l) (x :: m).

End Recorder.

(** ** The trim editor (component [Preview]) *)
Module Preview.

Import JSNum.
Local Open Scope string_scope.
Local Open Scope list_scope.

(** The [<video>] element behind [videoRef], as far as the editor uses it. *)
Module Video.
Record HTMLVideoElement : Type := {
  currentTime : num;   (* seconds *)
  duration    : num;   (* seconds; Infinity for a blob without a cue index *)
  paused      : bool
}.
Definition seek (time : num) (v : HTMLVideoElement) : HTMLVideoElement :=
  {| currentTime := time; duration := duration v; paused := paused v |}.
Definition setPaused (b : bool) (v : HTMLVideoElement) : HTMLVideoElement :=
  {| currentTime := currentTime v; duration := duration v; paused := b |}.
End Video.

(** What [saveTrim] keeps in its closures while the trim runs: the window it
    was called with, the type of the source blob and the chunks so far. *)
Record TrimJob : Type := {
  jobStart  : num;
  jobEnd    : num;
  jobType   : string;
  chunks    : list Types.Blob;
  listening : bool      (* stopHandler is still registered *)
}.

(** The props and state of the component; [updates] are the calls of
    [onUpdateMedia], in order. *)
Record Preview : Type := {
  media        : Types.RecordedMedia;
  videoRef     : option Video.HTMLVideoElement;
  isPlaying    : bool;
  isEditing    : bool;
  trimStart    : num;
  trimEnd      : num;
  duration     : num;
  isProcessing : bool;
  currentTime  : num;
  job          : option TrimJob;
  updates      : list Types.RecordedMedia
}.

Definition setVideoRef v (p : Preview) : Preview :=
  let 'Build_Preview a _ c d e f g h i j k := p in Build_Preview a v c d e f g h i j k.
Definition setIsPlaying v (p : Preview) : Preview :=
  let 'Build_Preview a b _ d e f g h i j k := p in Build_Preview a b v d e f g h i j k.
Definition setIsEditing v (p : Preview) : Preview :=
  let 'Build_Preview a b c _ e f g h i j k := p in Build_Preview a b c v e f g h i j k.
Definition setTrimStart v (p : Preview) : Preview :=
  let 'Build_Preview a b c d _ f g h i j k := p in Build_Preview a b c d v f g h i j k.
Definition setTrimEnd v (p : Preview) : Preview :=
  let 'Build_Preview a b c d e _ g h i j k := p in Build_Preview a b c d e v g h i j k.
Definition setDuration v (p : Preview) : Preview :=
  let 'Build_Preview a b c d e f _ h i j k := p in Build_Preview a b c d e f v h i j k.
Definition setIsProcessing v (p : Preview) : Preview :=
  let 'Build_Preview a b c d e f g _ i j k := p in Build_Preview a b c d e f g v i j k.
Definition setCurrentTime v (p : Preview) : Preview :=
  let 'Build_Preview a b c d e f g h _ j k := p in Build_Preview a b c d e f g h v j k.
Definition setJob v (p : Preview) : Preview :=
  let 'Build_Preview a b c d e f g h i _ k := p in Build_Preview a b c d e f g h i v k.
Definition onUpdateMedia (m : Types.RecordedMedia) (p : Preview) : Preview :=
  let 'Build_Preview a b c d e f g h i j k := p in Build_Preview a b c d e f g h i j (k ++ [m]).

(** [if (videoRef.current) videoRef.current.currentTime = time] *)
Definition seekVideo (time : num) (p : Preview) : Preview :=
  match videoRef p with
  | Some v => setVideoRef (Some (Video.seek time v)) p
  | None => p
  end.

Definition pauseVideo (p : Preview) : Preview :=
  match videoRef p with
  | Some v => setVideoRef (Some (Video.setPaused true v)) p
  | None => p
  end.

Definition handleLoadedMetadata (p : Preview) : Preview :=
  match videoRef p with
  | Some v =>
    let dur := Video.duration v in
    let dur :=
      if negb (isFinite dur) || isZero dur
      then (Types.duration (media p) / Fin 1000)%js
      else dur in
    setTrimEnd dur (setTrimStart (Fin 0) (setDuration dur p))
  | None => p
  end.

Definition handleTimeUpdate (p : Preview) : Preview :=
  match videoRef p with
  | Some v =>
    let time := Video.currentTime v in
    let p := setCurrentTime time p in
    if isEditing p && jge time (trimEnd p)
    then setIsPlaying false (seekVideo (trimStart p) (pauseVideo p))
    else p
  | None => p
  end.

(** [saveTrim] up to the registration of [stopHandler].  [seeked] tells
    whether the awaited [seeked] event ever comes; [captureError] is what
    capturing the stream, making the recorder or starting it throws. *)
Definition saveTrim (seeked : bool) (captureError : option Media.JsError)
  (p : Preview) : Preview :=
  match videoRef p with
  | None => p
  | Some _ =>
    let p1 := seekVideo (trimStart p) (setIsPlaying true (setIsProcessing true p)) in
    if seeked then
      match captureError with
      | Some _ => setIsProcessing false p1
      | None =>
        let j := {| jobStart := trimStart p; jobEnd := trimEnd p;
                    jobType := Types.type (Types.blob (media p));
                    chunks := []; listening := true |} in
        match videoRef p1 with
        | Some v => setVideoRef (Some (Video.setPaused false v)) (setJob (Some j) p1)
        | None => p1
        end
      end
    else p1
  end.

(** [recorder.ondataavailable] of the trim recorder. *)
Definition ondataavailable (b : Types.Blob) (p : Preview) : Preview :=
  match job p with
  | Some j =>
    if (0 <? Types.size b)%nat
    then setJob (Some {| jobStart := jobStart j; jobEnd := jobEnd j;
                         jobType := jobType j; chunks := chunks j ++ [b];
                         listening := listening j |}) p
    else p
  | None => p
  end.

(** [stopHandler], the [timeupdate] listener that [saveTrim] registers. *)
Definition stopHandler (p : Preview) : Preview :=
  match job p, videoRef p with
  | Some j, Some v =>
    if listening j && jge (Video.currentTime v) (jobEnd j)
    then setJob (Some {| jobStart := jobStart j; jobEnd := jobEnd j;
                         jobType := jobType j; chunks := chunks j;
                         listening := false |})
                (pauseVideo p)
    else p
  | _, _ => p
  end.

(** [recorder.onstop] of the trim recorder; [newUrl] and [now] are what
    [URL.createObjectURL] and [Date.now] return. *)
Definition onstop (newUrl : string) (now : Z) (p : Preview) : Preview :=
  match job p with
  | Some j =>
    let newBlob := Types.newBlob (chunks j) (jobType j) in
    let newDuration := ((jobEnd j - jobStart j) * Fin 1000)%js in
    let p := onUpdateMedia
               {| Types.blob := newBlob; Types.url := newUrl;
                  Types.duration := newDuration; Types.timestamp := now |} p in
    setJob None (setIsPlaying false (setIsEditing false (setIsProcessing false p)))
  | None => p
  end.

(** What can happen while a trim runs. *)
Inductive Event : Type :=
| Playback (time : num)                  (* the video reaches [time] *)
| TimeUpdate                             (* the component's onTimeUpdate *)
| StopCheck                              (* the registered stopHandler *)
| DataAvailable (b : Types.Blob)
| RecorderStop (newUrl : string) (now : Z).

Definition step (p : Preview) (ev : Event) : Preview :=
  match ev with
  | Playback time => seekVideo time p
  | TimeUpdate => handleTimeUpdate p
  | StopCheck => stopHandler p
  | DataAvailable b => ondataavailable b p
  | RecorderStop newUrl now => onstop newUrl now p
  end.

Definition run (evs : list Event) (p : Preview) : Preview := fold_left step evs p.

(** *** The selection handles ([handleDrag]) *)

Inductive Handle : Type := startHandle | endHandle.

(** [track.getBoundingClientRect()], as far as [update] reads it. *)
Record DOMRect : Type := {
  left  : num;
  width : num
}.

(** The time under the pointer, clamped to the track. *)
Definition pointerTime (clientX : num) (rect : DOMRect) (dur : num) : num :=
  let percent :=
    jmin (jmax (Fin 0) ((clientX - left rect) / width rect)%js) (Fin 1) in
  (percent * dur)%js.

Definition minSegment : num := Fin (1 # 2).

(** The two branches of [update], from the clamped time on. *)
Definition moveHandle (type : Handle) (time : num) (p : Preview) : Preview :=
  match type with
  | startHandle =>
    let newStart := jmin time (trimEnd p - minSegment)%js in
    seekVideo newStart (setTrimStart newStart p)
  | endHandle =>
    let newEnd := jmax time (trimStart p + minSegment)%js in
    seekVideo newEnd (setTrimEnd newEnd p)
  end.

(** [update] of [handleDrag type]: one move of the pointer.  A drag moves one
    handle, so the window its closure holds is the current one. *)
Definition update (type : Handle) (clientX : num) (rect : DOMRect)
  (p : Preview) : Preview :=
  moveHandle type (pointerTime clientX rect (duration p)) p.

(** The trim window, when both ends are finite. *)
Definition window (p : Preview) : option (Q * Q) :=
  match trimStart p, trimEnd p with
  | Fin s, Fin e => Some (s, e)
  | _, _ => None
  end.


End Preview.

(** ** The clock display ([formatTime]) *)
Module FormatTime.

Import JSNum.
Local Open Scope string_scope.

(** The decimal form of an integer. *)
Definition decimal (z : Z) : string := NilZero.string_of_int (Z.to_int z).

(** [Math.floor(a).toString()].  The decimal form is the one JavaScript
    prints below 1e21; from there on it switches to exponent notation, which
    is not modelled. *)
Definition floorString (a : num) : string :=
  match a with
  | Fin q => decimal (Qfloor q)
  | PInf => "Infinity"
  | NInf => "-Infinity"
  | NaN => "NaN"
  end.

(** Rounding towards zero. *)
Definition truncate (q : Q) : Z :=
  if Qle_bool 0 q then Qfloor q else Qceiling q.

(** [a % b]: the remainder has the sign of [a]. *)
Definition jrem (a b : num) : num :=
  match a, b with
  | NaN, _ | _, NaN => NaN
  | PInf, _ | NInf, _ => NaN
  | Fin x, Fin y =>
    if Qeq_bool y 0 then NaN
    else Fin (x - y * inject_Z (truncate (x / y)))%Q
  | Fin x, _ => Fin x
  end.

Fixpoint zeros (n : nat) : string :=
  match n with
  | O => ""
  | S k => String (Ascii.ascii_of_nat 48) (zeros k)
  end.

(** [s.padStart(n, '0')] *)
Definition padStart (n : nat) (s : string) : string :=
  zeros (n - String.length s) ++ s.

Definition formatTime (seconds : num) : string :=
  let mins := floorString (seconds / Fin 60)%js in
  let secs := floorString (jrem seconds (Fin 60)) in
  padStart 2 mins ++ ":" ++ padStart 2 secs.

(** The character of a decimal digit. *)
Definition digit (d : Z) : string :=
  String (Ascii.ascii_of_nat (48 + Z.to_nat d)) "".

(** A number below one hundred on two digits. *)
Definition twoDigits (k : Z) : string := digit (k / 10) ++ digit (k mod 10).

End FormatTime.

(** ** Which inputs the mixer connects *)
Module MixPolicy.

Import Media AudioMix.
Local Open Scope list_scope.

(** The inputs of the mixer, desktop first. *)
Definition inputs (desktopStream : MediaStream) (voiceStream : option MediaStream)
  : list MediaStream :=
  desktopStream :: match voiceStream with Some v => [v] | None => [] end.

Definition hasAudio (s : MediaStream) : bool :=
  (0 <? List.length (getAudioTracks s))%nat.

(** An input with audio whose source node can be made and connected. *)
Definition mixable (ctx : AudioContext) (s : MediaStream) : bool :=
  hasAudio s && match sourceError ctx s with None => true | Some _ => false end.

(** An input with audio whose source node cannot be made or connected. *)
Definition refused (ctx : AudioContext) (s : MediaStream) : bool :=
  hasAudio s && match sourceError ctx s with None => false | Some _ => true end.

End MixPolicy.

(** ** Pause, resume, stop and the camera switch (component [App]) *)
Module Controls.

Import Media AudioMix Types Recorder.
Local Open Scope string_scope.
Local Open Scope list_scope.

(** [MediaRecorder.state] *)
Inductive RecordingState : Type := inactive | recording | paused.

(** The calls made on the recorder after it was started. *)
Inductive RecorderCall : Type := pause | resume | stop.

(** The component together with the recorder behind [mediaRecorderRef]. *)
Record Live : Type := {
  app           : App;
  recorderState : RecordingState;
  calls         : list RecorderCall
}.

Definition invalidState : JsError :=
  {| name := "InvalidStateError"; message := "The MediaRecorder's state is 'inactive'." |}.

(** [recorder.pause()] and [recorder.resume()] throw on an inactive
    recorder. *)
Definition recorderPause (s : RecordingState) : Exc RecordingState :=
  match s with
  | inactive => Throw invalidState
  | _ => Ok paused
  end.

Definition recorderResume (s : RecordingState) : Exc RecordingState :=
  match s with
  | inactive => Throw invalidState
  | _ => Ok recording
  end.

Definition hasRecorder (a : App) : bool :=
  match mediaRecorderRef a with Some _ => true | None => false end.

Definition pauseRecording (l : Live) : Exc Live :=
  match mediaRecorderRef (app l), state (app l) with
  | Some _, RECORDING =>
    match recorderPause (recorderState l) with
    | Throw e => Throw e
    | Ok s =>
      let a := app l in
      let a1 := match timerIntervalRef a with
                | Some id => setTimerIntervalRef None (emit [ClearInterval id] a)
                | None => a
                end in
      Ok {| app := setState PAUSED a1; recorderState := s;
            calls := calls l ++ [pause] |}
    end
  | _, _ => Ok l
  end.

Definition resumeRecording (env : StartEnv) (l : Live) : Exc Live :=
  match mediaRecorderRef (app l), state (app l) with
  | Some _, PAUSED =>
    match recorderResume (recorderState l) with
    | Throw e => Throw e
    | Ok s =>
      Ok {| app := setState RECORDING (startTimer env (app l)); recorderState := s;
            calls := calls l ++ [resume] |}
    end
  | _, _ => Ok l
  end.

(** [stopRecording] as a closure: [seen] is the [state] and [camera] the
    [cameraStream] of the render that made it. *)
Definition stopRecordingFrom (seen : RecorderState) (camera : option MediaStream)
  (l : Live) : Live :=
  let a := app l in
  if hasRecorder a
     && match seen with RECORDING | PAUSED => true | _ => false end
  then
    let '(s, cs) :=
      match recorderState l with
      | inactive => (inactive, calls l)
      | _ => (inactive, calls l ++ [stop])
      end in
    let a1 := match timerIntervalRef a with
              | Some id => emit [ClearInterval id] a
              | None => a
              end in
    {| app := a1; recorderState := s; calls := cs |}
  else
    {| app := setState IDLE (stopAllStreams camera a);
       recorderState := recorderState l; calls := calls l |}.


(** [recorder.onerror], a closure of the render that called
    [startRecording]. *)
Definition onerror (seen : RecorderState) (camera : option MediaStream)
  (l : Live) : Live :=
  let a := setError (Some "Recording error occurred.")
             (emit [Console "MediaRecorder error:"] (app l)) in
  stopRecordingFrom seen camera
    {| app := a; recorderState := recorderState l; calls := calls l |}.

Definition withShowCamera (b : bool) (st : RecorderSettings) : RecorderSettings :=
  {| showCamera := b; enableMic := enableMic st;
     enableSystemAudio := enableSystemAudio st |}.

Definition toggleCamera (env : StartEnv) (a : App) : App :=
  if showCamera (settings a) then
    let a1 := match cameraStream a with
              | Some s => setCameraStream None (stopTracks s a)
              | None => a
              end in
    setSettings (withShowCamera false (settings a1)) a1
  else
    let a1 := initializeCamera env a in
    setSettings (withShowCamera true (settings a1)) a1.

(** The two commands of the floating controls during a recording. *)
Inductive Command : Type := Pause | Resume.

Definition command (env : StartEnv) (c : Command) (l : Live) : Exc Live :=
  match c with
  | Pause => pauseRecording l
  | Resume => resumeRecording env l
  end.

Fixpoint commands (env : StartEnv) (cs : list Command) (l : Live) : Exc Live :=
  match cs with
  | [] => Ok l
  | c :: rest =>
    match command env c l with
    | Ok l' => commands env rest l'
    | Throw e => Throw e
    end
  end.

(** The React state and the recorder agree. *)
Definition inStep (l : Live) : Prop :=
  mediaRecorderRef (app l) <> None
  /\ match state (app l) with
     | RECORDING => recorderState l = recording
     | PAUSED => recorderState l = paused
     | _ => False
     end.

(** The stream handed to the recorder: the screen's video and the mixed
    audio. *)
Definition combinedOf (env : StartEnv) (displayStream : MediaStream) : MediaStream :=
  getVideoTracks displayStream ++ getAudioTracks (destination (audioContext env)).

(** Some track of the combined stream is live when the recorder is about to
    be made. *)
Definition someLive (env : StartEnv) (displayStream : MediaStream) (a : App) : Prop :=
  exists x, In x (combinedOf env displayStream)
            /\ existsb (Nat.eqb (tid x)) (endedTracks env) = false
            /\ stopped (trace a) x = false.

(** The test by which the [catch] block of [startRecording] takes an error
    for a cancellation by the user. *)
Definition takenForCancel (err : JsError) : bool :=
  String.eqb (name err) "NotAllowedError"
  || String.eqb (name err) "PermissionDeniedError"
  || includes (message err) "Permission denied"
  || includes (message err) "user denied".

(** The save prompt, if there is one, is not cancelled. *)
Definition notCancelled (env : StartEnv) : Prop :=
  hasSaveFilePicker env = true ->
  forall e, saveTarget env = Throw e -> name e <> "AbortError".

(** The disk target [startRecording] ends up with. *)
Definition negotiatedTarget (env : StartEnv) : option FileSystemWritableFileStream :=
  if hasSaveFilePicker env
  then match saveTarget env with Ok w => Some w | Throw _ => None end
  else None.

(** [a'] has the session of [a]: same state, recorder, clock and buffer. *)
Definition sameSession (a a' : App) : Prop :=
  state a' = state a
  /\ mediaRecorderRef a' = mediaRecorderRef a
  /\ timer a' = timer a
  /\ timerIntervalRef a' = timerIntervalRef a
  /\ chunksRef a' = chunksRef a.

(** The clock runs exactly while the session is in RECORDING. *)
Definition ticking (a : App) : Prop :=
  match state a with
  | RECORDING => timerIntervalRef a <> None
  | PAUSED => timerIntervalRef a = None
  | _ => True
  end.

Definition tracksOf (s : option MediaStream) : list MediaStreamTrack :=
  match s with Some x => getTracks x | None => [] end.

(** The [stop()] calls recorded in a trace. *)
Definition stops (tr : list Effect) : list MediaStreamTrack :=
  flat_map (fun e => match e with StopTrack x => [x] | _ => [] end) tr.

End Controls.

(** ** Where the canvas calls land

    The current transformation of a 2D context, for the calls [draw] makes:
    translations and axis scalings, saved and restored. *)
Module CanvasGeometry.

Import JSNum Compositor.
Local Open Scope list_scope.

(** The map [(u, v) |-> (sx * u + tx, sy * v + ty)]. *)
Record Transform : Type := {
  sx : num; tx : num;
  sy : num; ty : num
}.

Definition identity : Transform :=
  {| sx := Fin 1; tx := Fin 0; sy := Fin 1; ty := Fin 0 |}.

Definition applyTo (m : Transform) (p : num * num) : num * num :=
  ((sx m * fst p + tx m)%js, (sy m * snd p + ty m)%js).

(** [ctx.translate(a, b)] and [ctx.scale(a, b)] act on the user space. *)
Definition translated (a b : num) (m : Transform) : Transform :=
  {| sx := sx m; tx := (sx m * a + tx m)%js;
     sy := sy m; ty := (sy m * b + ty m)%js |}.

Definition scaled (a b : num) (m : Transform) : Transform :=
  {| sx := (sx m * a)%js; tx := tx m;
     sy := (sy m * b)%js; ty := ty m |}.

(** Each call with the transformation in force when it is made. *)
Fixpoint placed (cur : Transform) (stack : list Transform) (ops : list CanvasOp)
  : list (CanvasOp * Transform) :=
  match ops with
  | [] => []
  | op :: rest =>
    (op, cur) ::
    match op with
    | save => placed cur (cur :: stack) rest
    | restore =>
      match stack with
      | m :: stack' => placed m stack' rest
      | [] => placed cur [] rest
      end
    | translate a b => placed (translated a b cur) stack rest
    | scale a b => placed (scaled a b cur) stack rest
    | _ => placed cur stack rest
    end
  end.

(** The rectangles the camera image is drawn into, on the canvas: the images
    of the corners [(dx, dy)] and [(dx + dw, dy + dh)]. *)
Definition cameraBoxes (es : list Effect) : list ((num * num) * (num * num)) :=
  flat_map (fun om =>
              match om with
              | (drawImage cameraVideo dx dy dw dh, m) =>
                [(applyTo m (dx, dy), applyTo m ((dx + dw)%js, (dy + dh)%js))]
              | _ => []
              end)
           (placed identity [] (canvasCalls es)).

(** The circles with the transformation they are drawn under. *)
Definition placedCircles (es : list Effect) : list ((num * num * num) * Transform) :=
  flat_map (fun om =>
              match om with
              | (arc cx cy r, m) => [((cx, cy, r), m)]
              | _ => []
              end)
           (placed identity [] (canvasCalls es)).

End CanvasGeometry.

(** ** The other handlers of the editor (component [Preview]) *)
Module Editor.

Import JSNum Preview.
Local Open Scope list_scope.

Definition enterEditMode (p : Preview) : Preview :=
  setIsEditing true (setIsPlaying false (pauseVideo p)).

Definition cancelEdit (p : Preview) : Preview :=
  let p1 := setIsEditing false p in
  match videoRef p1 with
  | Some _ => setTrimEnd (duration p) (setTrimStart (Fin 0) p1)
  | None => p1
  end.

Definition togglePlay (p : Preview) : Preview :=
  match videoRef p with
  | Some v =>
    let p1 :=
      if isPlaying p then pauseVideo p
      else
        let p0 := if isEditing p && jge (Video.currentTime v) (trimEnd p)
                  then seekVideo (trimStart p) p else p in
        match videoRef p0 with
        | Some v0 => setVideoRef (Some (Video.setPaused false v0)) p0
        | None => p0
        end in
    setIsPlaying (negb (isPlaying p)) p1
  | None => p
  end.

(** One pointer move of a drag of the handle [type]. *)
Record Move : Type := {
  clientX : num;
  rect    : DOMRect
}.

Definition drag (type : Handle) (moves : list Move) (p : Preview) : Preview :=
  fold_left (fun q m => update type (clientX m) (rect m) q) moves p.




(** The events in which the video does not move by itself. *)
Definition noPlayback (ev : Event) : Prop :=
  match ev with
  | Playback _ | RecorderStop _ _ => False
  | _ => True
  end.

(** A trim whose video sits at [s], before the end [e] of the window, with
    the stop handler still waiting. *)
Definition stalled (s e : Q) (q : Preview) : Prop :=
  exists j v,
    job q = Some j /\ listening j = true /\ jobEnd j = Fin e
    /\ videoRef q = Some v /\ Video.currentTime v = Fin s
    /\ trimStart q = Fin s /\ trimEnd q = Fin e.



End Editor.

(** ** The floating widgets ([FloatingControls], [CameraBubble]) *)
Module Widgets.

Import JSNum.
Local Open Scope list_scope.

Record Point : Type := {
  x : num;
  y : num
}.

(** The state both widgets keep for dragging. *)
Record Widget : Type := {
  position   : Point;
  isDragging : bool;
  dragOffset : Point
}.

Definition handleMouseDown (client : Point) (w : Widget) : Widget :=
  {| position := position w;
     isDragging := true;
     dragOffset := {| x := (x client - x (position w))%js;
                      y := (y client - y (position w))%js |} |}.

Definition handleMouseMove (client : Point) (w : Widget) : Widget :=
  if isDragging w
  then {| position := {| x := (x client - x (dragOffset w))%js;
                         y := (y client - y (dragOffset w))%js |};
          isDragging := isDragging w;
          dragOffset := dragOffset w |}
  else w.

Definition handleMouseUp (w : Widget) : Widget :=
  {| position := position w; isDragging := false; dragOffset := dragOffset w |}.

(** [handleResize] of the floating controls: keep the widget, 280 by 80, in
    the window. *)
Definition handleResize (innerWidth innerHeight : Z) (w : Widget) : Widget :=
  {| position :=
       {| x := jmin (jmax (Fin 0) (x (position w))) (ofZ innerWidth - Fin 280)%js;
          y := jmin (jmax (Fin 0) (y (position w))) (ofZ innerHeight - Fin 80)%js |};
     isDragging := isDragging w;
     dragOffset := dragOffset w |}.

Inductive MouseEvent : Type :=
| Down (client : Point)
| Move (client : Point)
| Up.

Definition handle (w : Widget) (ev : MouseEvent) : Widget :=
  match ev with
  | Down c => handleMouseDown c w
  | Move c => handleMouseMove c w
  | Up => handleMouseUp w
  end.

Definition pointAt (a b : Q) : Point := {| x := Fin a; y := Fin b |}.

(** The coordinates of a point, when they are finite. *)
Definition finite (p : Point) (a b : Q) : Prop :=
  exists a' b', x p = Fin a' /\ y p = Fin b' /\ (a' == a)%Q /\ (b' == b)%Q.

Definition isMove (ev : MouseEvent) : Prop :=
  match ev with Move c => exists a b, c = pointAt a b | _ => False end.

End Widgets.

(** ** Concrete inputs and the statements that are checked against them *)
Module Scenarios.

Import JSNum.
Local Open Scope string_scope.
Local Open Scope list_scope.

(** A compositor whose canvas gave a 2D context, before its first frame. *)
Definition freshCompositor : Compositor.VideoCompositor :=
  {| Compositor.canvasWidth := 300; Compositor.canvasHeight := 150;
     Compositor.ctx := Some Compositor.Context2D; Compositor.animationId := 0 |}.

(** A compositor whose canvas gave no 2D context. *)
Definition blindCompositor : Compositor.VideoCompositor :=
  {| Compositor.canvasWidth := 300; Compositor.canvasHeight := 150;
     Compositor.ctx := None; Compositor.animationId := 0 |}.

(** A 1920x1080 screen seen from a 1500x900 window, the bubble at (20, 20). *)
Definition hdTick : Compositor.Tick :=
  {| Compositor.videoWidth := 1920; Compositor.videoHeight := 1080;
     Compositor.innerWidth := 1500; Compositor.innerHeight := 900;
     Compositor.overlayPos := (Fin 20, Fin 20); Compositor.frameId := 1 |}.

(** The first tick, before the screen video has a size. *)
Definition earlyTick : Compositor.Tick :=
  {| Compositor.videoWidth := 0; Compositor.videoHeight := 0;
     Compositor.innerWidth := 1500; Compositor.innerHeight := 900;
     Compositor.overlayPos := (Fin 20, Fin 20); Compositor.frameId := 1 |}.

(** The overlay circle as the specification words it: diameter
    [192 * (width / innerWidth)], centre at the position scaled per axis. *)
Definition circleAtScaledPosition (t : Compositor.Tick)
  (c : Compositor.VideoCompositor) : Prop :=
  let scaleX := (ofN (Compositor.videoWidth t) / ofZ (Compositor.innerWidth t))%js in
  let scaleY := (ofN (Compositor.videoHeight t) / ofZ (Compositor.innerHeight t))%js in
  forall cx cy r,
    In (cx, cy, r) (Compositor.circles (snd (Compositor.draw t c))) ->
    (r * Fin 2)%js =~ (Compositor.bubbleFootprint * scaleX)%js
    /\ cx =~ (fst (Compositor.overlayPos t) * scaleX)%js
    /\ cy =~ (snd (Compositor.overlayPos t) * scaleY)%js.

(** A tick without a known resolution as the specification words it: nothing
    but the next frame request. *)
Definition skipsAndReschedules (t : Compositor.Tick)
  (c : Compositor.VideoCompositor) : Prop :=
  snd (Compositor.draw t c) = [Compositor.RequestAnimationFrame].

(** Tracks: a screen capture with its system audio, a microphone, the track
    of the mixing destination. *)
Definition screenVideoTrack : Media.MediaStreamTrack := {| Media.tid := 1; Media.kind := Media.video |}.
Definition screenAudioTrack : Media.MediaStreamTrack := {| Media.tid := 2; Media.kind := Media.audio |}.
Definition micTrack : Media.MediaStreamTrack := {| Media.tid := 3; Media.kind := Media.audio |}.
Definition mixedTrack : Media.MediaStreamTrack := {| Media.tid := 4; Media.kind := Media.audio |}.

Definition screenWithAudio : Media.MediaStream := [screenVideoTrack; screenAudioTrack].
Definition microphone : Media.MediaStream := [micTrack].

(** An audio context that runs and connects every source it is given. *)
Definition runningContext : AudioMix.AudioContext :=
  {| AudioMix.suspended := false; AudioMix.resumeRejects := false;
     AudioMix.sourceError := fun _ => None;
     AudioMix.destination := [mixedTrack] |}.

(** The mixer's output as the specification words it: audio only. *)
Definition audioOnly (ctx : AudioMix.AudioContext) (desktopStream : Media.MediaStream)
  (voiceStream : option Media.MediaStream) : Prop :=
  Media.getVideoTracks (fst (AudioMix.mergeAudioStreams ctx desktopStream voiceStream)) = [].

(** The component before any recording, everything enabled. *)
Definition idleApp : Recorder.App :=
  {| Recorder.state := Types.IDLE;
     Recorder.settings := {| Types.showCamera := true; Types.enableMic := true;
                             Types.enableSystemAudio := true |};
     Recorder.translations := {| Recorder.saveSuccess := "Saved";
                                 Recorder.errorGeneric := "Failed to start recording" |};
     Recorder.cameraStream := None;
     Recorder.timer := 0;
     Recorder.error := None;
     Recorder.notification := None;
     Recorder.isSelecting := false;
     Recorder.mediaRecorderRef := None;
     Recorder.chunksRef := [];
     Recorder.timerIntervalRef := None;
     Recorder.streamRef := None;
     Recorder.writableStreamRef := None;
     Recorder.trace := [] |}.

Definition denied : Media.JsError :=
  {| Media.name := "NotAllowedError"; Media.message := "Permission denied" |}.

Definition aborted : Media.JsError :=
  {| Media.name := "AbortError"; Media.message := "The user aborted a request." |}.

(** A browser without a save picker that grants screen and microphone. *)
Definition memoryEnv : Recorder.StartEnv :=
  {| Recorder.displayMedia := Media.Ok screenWithAudio;
     Recorder.hasSaveFilePicker := false;
     Recorder.saveTarget := Media.Throw aborted;
     Recorder.micMedia := Media.Ok microphone;
     Recorder.audioContext := runningContext;
     Recorder.endedTracks := [];
     Recorder.isTypeSupported := fun _ => true;
     Recorder.recorderCtorError := None;
     Recorder.recorderStartError := None;
     Recorder.cameraMedia := Media.Throw denied;
     Recorder.intervalId := 7 |}.

(** The same browser with a save picker in which the user picks a file. *)
Definition diskEnv : Recorder.StartEnv :=
  {| Recorder.displayMedia := Media.Ok screenWithAudio;
     Recorder.hasSaveFilePicker := true;
     Recorder.saveTarget := Media.Ok Recorder.Writable;
     Recorder.micMedia := Media.Ok microphone;
     Recorder.audioContext := runningContext;
     Recorder.endedTracks := [];
     Recorder.isTypeSupported := fun _ => true;
     Recorder.recorderCtorError := None;
     Recorder.recorderStartError := None;
     Recorder.cameraMedia := Media.Throw denied;
     Recorder.intervalId := 7 |}.

(** The same browser when the user cancels the save picker. *)
Definition cancelEnv : Recorder.StartEnv :=
  {| Recorder.displayMedia := Media.Ok screenWithAudio;
     Recorder.hasSaveFilePicker := true;
     Recorder.saveTarget := Media.Throw aborted;
     Recorder.micMedia := Media.Ok microphone;
     Recorder.audioContext := runningContext;
     Recorder.endedTracks := [];
     Recorder.isTypeSupported := fun _ => true;
     Recorder.recorderCtorError := None;
     Recorder.recorderStartError := None;
     Recorder.cameraMedia := Media.Throw denied;
     Recorder.intervalId := 7 |}.


(** Sessions that reached RECORDING, with and without a disk target. *)
Definition recordingToDisk : Recorder.App := Recorder.startRecording diskEnv idleApp.
Definition recordingToMemory : Recorder.App := Recorder.startRecording memoryEnv idleApp.

Definition webm : string := "video/webm;codecs=vp9,opus".

Definition chunkA : Types.Blob := {| Types.bytes := [Byte.x01]; Types.type := webm |}.
Definition chunkB : Types.Blob := {| Types.bytes := [Byte.x02]; Types.type := webm |}.
Definition emptyChunk : Types.Blob := {| Types.bytes := []; Types.type := webm |}.

Definition failedWrite (b : Types.Blob) : Recorder.BlobEvent :=
  {| Recorder.data := b; Recorder.writeRejects := true |}.
Definition goodWrite (b : Types.Blob) : Recorder.BlobEvent :=
  {| Recorder.data := b; Recorder.writeRejects := false |}.

Definition closure : Recorder.Closure :=
  {| Recorder.selectedMimeType := webm; Recorder.closedCamera := None |}.


(** A ten-second recording whose blob has no duration of its own (Chrome
    reports Infinity), opened in the editor. *)
Definition tenSeconds : Types.RecordedMedia :=
  {| Types.blob := Types.newBlob [chunkA; chunkB] webm; Types.url := "blob:original";
     Types.duration := Fin 10000; Types.timestamp := 0 |}.

Definition mounted : Preview.Preview :=
  {| Preview.media := tenSeconds;
     Preview.videoRef := Some {| Preview.Video.currentTime := Fin 0;
                                 Preview.Video.duration := PInf;
                                 Preview.Video.paused := true |};
     Preview.isPlaying := false;
     Preview.isEditing := false;
     Preview.trimStart := Fin 0;
     Preview.trimEnd := Fin 0;
     Preview.duration := Fin 0;
     Preview.isProcessing := false;
     Preview.currentTime := Fin 0;
     Preview.job := None;
     Preview.updates := [] |}.

Definition editing : Preview.Preview :=
  Preview.setIsEditing true (Preview.handleLoadedMetadata mounted).

(** A trim that runs to its end: the video reaches second 10, the stop
    handler fires, the recorder flushes and stops. *)
Definition fullTrim : list Preview.Event :=
  [ Preview.DataAvailable chunkA;
    Preview.Playback (Fin 10);
    Preview.StopCheck;
    Preview.DataAvailable chunkB;
    Preview.RecorderStop "blob:trimmed" 42 ].

(** A 1920x1080 screen while the window reports a width of zero. *)
Definition zeroViewportTick : Compositor.Tick :=
  {| Compositor.videoWidth := 1920; Compositor.videoHeight := 1080;
     Compositor.innerWidth := 0; Compositor.innerHeight := 900;
     Compositor.overlayPos := (Fin 20, Fin 20); Compositor.frameId := 1 |}.

(** No save picker, the screen granted, the microphone refused. *)
Definition micDeniedEnv : Recorder.StartEnv :=
  {| Recorder.displayMedia := Media.Ok screenWithAudio;
     Recorder.hasSaveFilePicker := false;
     Recorder.saveTarget := Media.Throw aborted;
     Recorder.micMedia := Media.Throw denied;
     Recorder.audioContext := runningContext;
     Recorder.endedTracks := [];
     Recorder.isTypeSupported := fun _ => true;
     Recorder.recorderCtorError := None;
     Recorder.recorderStartError := None;
     Recorder.cameraMedia := Media.Throw denied;
     Recorder.intervalId := 7 |}.

Definition notSupported : Media.JsError :=
  {| Media.name := "NotSupportedError"; Media.message := "mimeType is not supported" |}.

(** A browser that grants everything but cannot make the recorder. *)
Definition noRecorderEnv : Recorder.StartEnv :=
  {| Recorder.displayMedia := Media.Ok screenWithAudio;
     Recorder.hasSaveFilePicker := false;
     Recorder.saveTarget := Media.Throw aborted;
     Recorder.micMedia := Media.Ok microphone;
     Recorder.audioContext := runningContext;
     Recorder.endedTracks := [];
     Recorder.isTypeSupported := fun _ => false;
     Recorder.recorderCtorError := Some notSupported;
     Recorder.recorderStartError := None;
     Recorder.cameraMedia := Media.Throw denied;
     Recorder.intervalId := 7 |}.

(** The user dismisses the screen picker. *)
Definition refusedEnv : Recorder.StartEnv :=
  {| Recorder.displayMedia := Media.Throw denied;
     Recorder.hasSaveFilePicker := true;
     Recorder.saveTarget := Media.Ok Recorder.Writable;
     Recorder.micMedia := Media.Ok microphone;
     Recorder.audioContext := runningContext;
     Recorder.endedTracks := [];
     Recorder.isTypeSupported := fun _ => true;
     Recorder.recorderCtorError := None;
     Recorder.recorderStartError := None;
     Recorder.cameraMedia := Media.Throw denied;
     Recorder.intervalId := 7 |}.

(** The session of [recordingToMemory] with its recorder running. *)
Definition liveSession : Controls.Live :=
  {| Controls.app := recordingToMemory;
     Controls.recorderState := Controls.recording;
     Controls.calls := [] |}.

(** A track 400 pixels wide starting at x = 100, and a sweep of the pointer
    from left of it to right of it. *)
Definition track : Preview.DOMRect :=
  {| Preview.left := Fin 100; Preview.width := Fin 400 |}.

Definition sweep : list Editor.Move :=
  [ {| Editor.clientX := Fin (-50); Editor.rect := track |};
    {| Editor.clientX := Fin 300; Editor.rect := track |};
    {| Editor.clientX := Fin 900; Editor.rect := track |} ].

End Scenarios.

(** * Properties *)

(** ** Numbers *)
Module JSNumFacts.

Import JSNum.
Local Open Scope Q_scope.

Lemma Qeq_bool_false (x : Q) : ~ x == 0 -> Qeq_bool x 0 = false.
Proof.
  intro H. destruct (Qeq_bool x 0) eqn:E; [|reflexivity].
  apply Qeq_bool_iff in E. contradiction.
Qed.

Lemma jdiv_fin (x y : Q) : ~ y == 0 -> jdiv (Fin x) (Fin y) = Fin (x / y).
Proof. intro H. simpl. now rewrite Qeq_bool_false. Qed.

Lemma jor_fin (x : Q) (d : num) : ~ x == 0 -> jor (Fin x) d = Fin x.
Proof. intro H. unfold jor. simpl. now rewrite Qeq_bool_false. Qed.

Lemma Qdiv_pos (x y : Q) : 0 < x -> 0 < y -> 0 < x / y.
Proof.
  intros Hx Hy. unfold Qdiv. apply Qmult_lt_0_compat; [assumption|].
  now apply Qinv_lt_0_compat.
Qed.

Lemma inject_N_pos (n : N) : n <> 0%N -> 0 < inject_Z (Z.of_N n).
Proof.
  intro H. change 0 with (inject_Z 0). rewrite <- Zlt_Qlt. lia.
Qed.

Lemma inject_Z_pos (z : Z) : (0 < z)%Z -> 0 < inject_Z z.
Proof. intro H. change 0 with (inject_Z 0). now rewrite <- Zlt_Qlt. Qed.

End JSNumFacts.

(** ** The compositor *)
Module CompositorFacts.

Import JSNum JSNumFacts Compositor.
Local Open Scope Q_scope.

Lemma circles_app (es fs : list Effect) :
  circles (es ++ fs) = (circles es ++ circles fs)%list.
Proof.
  unfold circles, canvasCalls. now rewrite !flat_map_app.
Qed.

(** The trace of a tick that draws: an optional resize, the screen, the
    overlay, the next frame request. *)
Lemma draw_known (t : Tick) (c : VideoCompositor) :
  ctx c <> None -> videoWidth t <> 0%N -> videoHeight t <> 0%N ->
  exists pre,
    (pre = [] \/ pre = [Resize (videoWidth t) (videoHeight t)])
    /\ snd (draw t c)
       = (pre ++ (Call (drawImage screenVideo (Fin 0) (Fin 0)
                          (ofN (videoWidth t)) (ofN (videoHeight t)))
                  :: drawOverlay t) ++ [RequestAnimationFrame])%list.
Proof.
  intros Hc Hw Hh. unfold draw.
  destruct (ctx c) as [k|]; [|contradiction].
  apply N.eqb_neq in Hw, Hh. rewrite Hw, Hh. cbn [negb andb].
  destruct (negb (canvasWidth c =? videoWidth t)%N
            || negb (canvasHeight c =? videoHeight t)%N)%bool;
    cbn [snd andb].
  - exists [Resize (videoWidth t) (videoHeight t)]. split; [now right | reflexivity].
  - exists []. split; [now left | reflexivity].
Qed.

(** C3, as amended: on every tick that draws, with a positive viewport, both
    circles of the overlay (clip and border) have diameter
    [192 * (width / innerWidth)]; the scaled position is the top-left corner
    of the circle's bounding box, so the centre is the scaled position moved
    by one radius along each axis. *)
Theorem overlay_circle_geometry (w h : N) (vw vh : Z) (px py : Q) (fid : nat)
  (c : VideoCompositor) :
  ctx c <> None -> w <> 0%N -> h <> 0%N -> (0 < vw)%Z -> (0 < vh)%Z ->
  let scaleX := inject_Z (Z.of_N w) / inject_Z vw in
  let scaleY := inject_Z (Z.of_N h) / inject_Z vh in
  exists cx cy r : Q,
    circles (snd (draw {| videoWidth := w; videoHeight := h;
                          innerWidth := vw; innerHeight := vh;
                          overlayPos := (Fin px, Fin py); frameId := fid |} c))
    = [(Fin cx, Fin cy, Fin r); (Fin cx, Fin cy, Fin r)]
    /\ 2 * r == 192 * scaleX
    /\ cx - r == px * scaleX
    /\ cy - r == py * scaleY.
Proof.
  intros Hc Hw Hh Hvw Hvh scaleX scaleY.
  pose proof (inject_N_pos w Hw) as Pw. pose proof (inject_N_pos h Hh) as Ph.
  pose proof (inject_Z_pos vw Hvw) as Pvw. pose proof (inject_Z_pos vh Hvh) as Pvh.
  pose proof (Qdiv_pos _ _ Pw Pvw) as Psx.
  assert (Nvw : ~ inject_Z vw == 0) by lra.
  assert (Nvh : ~ inject_Z vh == 0) by lra.
  assert (Nsx : ~ scaleX == 0) by (unfold scaleX; lra).
  destruct (draw_known {| videoWidth := w; videoHeight := h;
                          innerWidth := vw; innerHeight := vh;
                          overlayPos := (Fin px, Fin py); frameId := fid |} c Hc Hw Hh)
    as (pre & Hpre & ->).
  exists (px * scaleX + 192 * scaleX / 2), (py * scaleY + 192 * scaleX / 2),
         (192 * scaleX / 2).
  split; [|repeat split; field].
  rewrite !circles_app.
  assert (circles pre = []) as -> by (destruct Hpre as [-> | ->]; reflexivity).
  unfold drawOverlay, ofN, ofZ, bubbleFootprint. cbn [videoWidth videoHeight innerWidth innerHeight overlayPos fst snd].
  rewrite !jdiv_fin by assumption. fold scaleX scaleY.
  rewrite jor_fin by assumption.
  reflexivity.
Qed.

(** The circle drawn on the 1920x1080 screen of [hdTick]. *)
Lemma hdTick_circles :
  circles (snd (draw Scenarios.hdTick Scenarios.freshCompositor))
  = let c := (Fin (20 * (1920 / 1500) + 192 * (1920 / 1500) / 2),
              Fin (20 * (1080 / 900) + 192 * (1920 / 1500) / 2),
              Fin (192 * (1920 / 1500) / 2)) in [c; c].
Proof. reflexivity. Qed.

(** C3, as the specification states it, fails on the 1920x1080 screen seen
    from a 1500x900 window with the bubble at (20, 20): the circle is centred
    at (148.48, 146.88), not at the scaled position (25.6, 24). *)
Lemma overlay_circle_not_at_scaled_position :
  ~ Scenarios.circleAtScaledPosition Scenarios.hdTick Scenarios.freshCompositor.
Proof.
  unfold Scenarios.circleAtScaledPosition. intro H.
  specialize (H _ _ _ (or_introl eq_refl)).
  destruct H as (_ & Hx & _). vm_compute in Hx. discriminate.
Qed.

(** C9, as amended: when the compositor holds a 2D context and the width or
    the height of the screen video is zero, the tick reads no position, calls
    nothing on the canvas, leaves its size alone and only requests the next
    frame. *)
Theorem draw_skips_unknown_resolution (t : Tick) (c : VideoCompositor) :
  ctx c <> None ->
  (videoWidth t = 0 \/ videoHeight t = 0)%N ->
  snd (draw t c) = [RequestAnimationFrame]
  /\ canvasWidth (fst (draw t c)) = canvasWidth c
  /\ canvasHeight (fst (draw t c)) = canvasHeight c
  /\ animationId (fst (draw t c)) = frameId t.
Proof.
  intros Hc Hz. unfold draw. destruct (ctx c); [|contradiction].
  assert (negb (videoWidth t =? 0)%N && negb (videoHeight t =? 0)%N = false)%bool as ->.
  { destruct Hz as [-> | ->]; cbn; [reflexivity | apply andb_false_r]. }
  cbn. auto.
Qed.

Lemma draw_skips_unknown_resolution_witness :
  snd (draw Scenarios.earlyTick Scenarios.freshCompositor) = [RequestAnimationFrame]
  /\ canvasWidth (fst (draw Scenarios.earlyTick Scenarios.freshCompositor)) = 300%N
  /\ canvasHeight (fst (draw Scenarios.earlyTick Scenarios.freshCompositor)) = 150%N
  /\ animationId (fst (draw Scenarios.earlyTick Scenarios.freshCompositor)) = 1%nat.
Proof.
  apply (draw_skips_unknown_resolution Scenarios.earlyTick Scenarios.freshCompositor).
  - discriminate.
  - left. reflexivity.
Defined.

(** C9, as the specification states it, fails when the canvas gave no 2D
    context: the tick returns at once and requests no further frame. *)
Lemma draw_without_context_does_not_reschedule :
  Compositor.videoWidth Scenarios.earlyTick = 0%N
  /\ ~ Scenarios.skipsAndReschedules Scenarios.earlyTick Scenarios.blindCompositor.
Proof. split; [reflexivity | discriminate]. Qed.

Lemma overlay_circle_geometry_witness :
  exists cx cy r : Q,
    circles (snd (draw Scenarios.hdTick Scenarios.freshCompositor))
    = [(Fin cx, Fin cy, Fin r); (Fin cx, Fin cy, Fin r)]
    /\ 2 * r == 192 * (inject_Z (Z.of_N 1920) / inject_Z 1500)
    /\ cx - r == 20 * (inject_Z (Z.of_N 1920) / inject_Z 1500)
    /\ cy - r == 20 * (inject_Z (Z.of_N 1080) / inject_Z 900).
Proof.
  apply (overlay_circle_geometry 1920 1080 1500 900 20 20 1 Scenarios.freshCompositor);
    [discriminate | discriminate | discriminate | reflexivity | reflexivity].
Defined.

End CompositorFacts.

(** ** The audio mixer *)
Module AudioMixFacts.

Import Media AudioMix.
Local Open Scope string_scope.
Local Open Scope list_scope.

Lemma isVideo_isAudio (x : MediaStreamTrack) : isVideo x = negb (isAudio x).
Proof. unfold isVideo, isAudio. now destruct (kind x). Qed.

Lemma video_of_audio (s : MediaStream) : getVideoTracks (getAudioTracks s) = [].
Proof.
  unfold getVideoTracks, getAudioTracks.
  induction s as [|x s IH]; [reflexivity|]. cbn [filter].
  destruct (isAudio x) eqn:E; [|exact IH].
  cbn [filter]. now rewrite isVideo_isAudio, E.
Qed.

Lemma audio_of_video (s : MediaStream) : getAudioTracks (getVideoTracks s) = [].
Proof.
  unfold getVideoTracks, getAudioTracks.
  induction s as [|x s IH]; [reflexivity|]. cbn [filter].
  destruct (isVideo x) eqn:E; [|exact IH].
  cbn [filter]. rewrite isVideo_isAudio in E. now destruct (isAudio x).
Qed.

Lemma filter_idem {A} (f : A -> bool) (l : list A) :
  filter f (filter f l) = filter f l.
Proof.
  induction l as [|x l IH]; [reflexivity|]. cbn [filter].
  destruct (f x) eqn:E; [|exact IH]. cbn [filter]. now rewrite E, IH.
Qed.

(** The Web Audio source node cannot be made from a stream without audio:
    the guards of the mixer are what keeps this exception away. *)
Lemma createMediaStreamSource_no_audio (ctx : AudioContext) (s : MediaStream) :
  getAudioTracks s = [] ->
  exists e, createMediaStreamSource ctx s = Throw e.
Proof. intro H. unfold createMediaStreamSource. rewrite H. eauto. Qed.

Lemma video_of_merged (d dest : MediaStream) :
  getVideoTracks (getVideoTracks d ++ getAudioTracks dest) = getVideoTracks d.
Proof.
  unfold getVideoTracks at 1. rewrite filter_app.
  fold (getVideoTracks (getVideoTracks d)).
  fold (getVideoTracks (getAudioTracks dest)).
  rewrite video_of_audio, app_nil_r. apply filter_idem.
Qed.

Lemma audio_of_merged (d dest : MediaStream) :
  getAudioTracks (getVideoTracks d ++ getAudioTracks dest) = getAudioTracks dest.
Proof.
  unfold getAudioTracks at 1. rewrite filter_app.
  fold (getAudioTracks (getVideoTracks d)).
  fold (getAudioTracks (getAudioTracks dest)).
  rewrite audio_of_video. apply filter_idem.
Qed.

(** C4, as amended: the stream the mixer returns is made of the video tracks
    of the desktop stream followed by the audio tracks of the mixing
    destination; its video is exactly the desktop's video, its audio exactly
    the mixed audio, and the voice stream contributes no track of its own. *)
Theorem merged_stream_tracks (ctx : AudioContext) (desktopStream : MediaStream)
  (voiceStream : option MediaStream) :
  let out := fst (mergeAudioStreams ctx desktopStream voiceStream) in
  out = getVideoTracks desktopStream ++ getAudioTracks (destination ctx)
  /\ getVideoTracks out = getVideoTracks desktopStream
  /\ getAudioTracks out = getAudioTracks (destination ctx).
Proof.
  cbn. split; [reflexivity|]. split; [apply video_of_merged | apply audio_of_merged].
Qed.

(** C4, as the specification states it, fails for a screen capture with one
    video track: the mixer hands that video track back with the mixed audio. *)
Lemma merged_stream_has_desktop_video :
  ~ Scenarios.audioOnly Scenarios.runningContext Scenarios.screenWithAudio
      (Some Scenarios.microphone).
Proof. unfold Scenarios.audioOnly. cbn. discriminate. Qed.



End AudioMixFacts.

(** ** The recording session *)
Module RecorderFacts.

Import Media AudioMix Types Recorder.
Local Open Scope string_scope.
Local Open Scope list_scope.

(** Both sample sessions are in RECORDING with an empty buffer and an
    untouched sink. *)
Example recordingToDisk_state :
  state Scenarios.recordingToDisk = RECORDING
  /\ writableStreamRef Scenarios.recordingToDisk = Some Writable
  /\ chunksRef Scenarios.recordingToDisk = []
  /\ quiet (trace Scenarios.recordingToDisk) = true.
Proof. repeat split. Qed.

Example recordingToMemory_state :
  state Scenarios.recordingToMemory = RECORDING
  /\ writableStreamRef Scenarios.recordingToMemory = None
  /\ chunksRef Scenarios.recordingToMemory = []
  /\ quiet (trace Scenarios.recordingToMemory) = true.
Proof. repeat split. Qed.

Lemma stopped_In (tr : list Effect) (x : MediaStreamTrack) :
  In (StopTrack x) tr -> stopped tr x = true.
Proof.
  intro H. unfold stopped. apply existsb_exists.
  exists (StopTrack x). split; [assumption | apply Nat.eqb_refl].
Qed.

(** *** Cancelling the save prompt *)

(** C6: when the screen was granted and the save picker is left with an
    AbortError, [startRecording] stops every track of the display stream and
    returns: it asks for no microphone, makes and starts no recorder, leaves
    the chunk buffer empty, the state IDLE and the error unset. *)
Theorem cancelled_save_prompt_aborts (env : StartEnv) (a : App)
  (displayStream : MediaStream) (e : JsError) :
  state a = IDLE ->
  displayMedia env = Ok displayStream ->
  getVideoTracks displayStream <> [] ->
  hasSaveFilePicker env = true ->
  saveTarget env = Throw e ->
  name e = "AbortError" ->
  let a' := startRecording env a in
  state a' = IDLE
  /\ error a' = None
  /\ isSelecting a' = false
  /\ mediaRecorderRef a' = mediaRecorderRef a
  /\ chunksRef a' = []
  /\ writableStreamRef a' = None
  /\ trace a' = trace a
                ++ [GetDisplayMedia (enableSystemAudio (settings a));
                    ShowSaveFilePicker;
                    Console "Save dialog cancelled by user."]
                ++ map StopTrack (getTracks displayStream)
  /\ (forall x, In x (getTracks displayStream) -> stopped (trace a') x = true)
  /\ ~ In GetUserMediaMic (skipn (List.length (trace a)) (trace a'))
  /\ (forall s m, ~ In (NewMediaRecorder s m) (skipn (List.length (trace a)) (trace a')))
  /\ (forall n, ~ In (StartRecorder n) (skipn (List.length (trace a)) (trace a'))).
Proof.
  intros Hst Hd Hv Hp Hs Hn a'. subst a'.
  unfold startRecording. rewrite Hd.
  destruct (getVideoTracks displayStream) as [|v vs]; [contradiction|].
  unfold setupFileHandle. rewrite Hp, Hs, Hn.
  destruct a as [st se tl cam tm er nt sel rec ch itv str wr tr].
  cbn -[skipn] in *.
  assert (Htr : (((tr ++ [GetDisplayMedia (enableSystemAudio se)])
                    ++ [ShowSaveFilePicker])
                   ++ [Console "Save dialog cancelled by user."])
                  ++ map StopTrack (getTracks displayStream)
                = tr ++ [GetDisplayMedia (enableSystemAudio se);
                         ShowSaveFilePicker;
                         Console "Save dialog cancelled by user."]
                     ++ map StopTrack (getTracks displayStream)).
  { now rewrite <- !app_assoc. }
  rewrite Htr. rewrite skipn_app, Nat.sub_diag, skipn_all. cbn [skipn app].
  assert (Hno : forall eff,
             In eff (GetDisplayMedia (enableSystemAudio se)
                     :: ShowSaveFilePicker
                     :: Console "Save dialog cancelled by user."
                     :: map StopTrack (getTracks displayStream)) ->
             match eff with
             | GetUserMediaMic | NewMediaRecorder _ _ | StartRecorder _ => False
             | _ => True
             end).
  { intros eff Hin. cbn in Hin.
    destruct Hin as [<- | [<- | [<- | Hin]]]; try exact I.
    apply in_map_iff in Hin. destruct Hin as (x & <- & _). exact I. }
  repeat split; try assumption.
  - intros x Hx. apply stopped_In.
    apply in_or_app. right. do 3 right. now apply in_map.
  - intro H. exact (Hno _ H).
  - intros s m H. exact (Hno _ H).
  - intros n H. exact (Hno _ H).
Qed.

Lemma cancelled_save_prompt_aborts_witness :
  let a' := startRecording Scenarios.cancelEnv Scenarios.idleApp in
  state a' = IDLE
  /\ error a' = None
  /\ isSelecting a' = false
  /\ mediaRecorderRef a' = None
  /\ chunksRef a' = []
  /\ writableStreamRef a' = None
  /\ trace a' = [GetDisplayMedia true; ShowSaveFilePicker;
                 Console "Save dialog cancelled by user.";
                 StopTrack Scenarios.screenVideoTrack;
                 StopTrack Scenarios.screenAudioTrack]
  /\ (forall x, In x Scenarios.screenWithAudio -> stopped (trace a') x = true)
  /\ ~ In GetUserMediaMic (trace a')
  /\ (forall s m, ~ In (NewMediaRecorder s m) (trace a'))
  /\ (forall n, ~ In (StartRecorder n) (trace a')).
Proof.
  apply (cancelled_save_prompt_aborts Scenarios.cancelEnv Scenarios.idleApp
           Scenarios.screenWithAudio Scenarios.aborted);
    [reflexivity | reflexivity | discriminate | reflexivity | reflexivity | reflexivity].
Defined.

(** *** The inactive stream *)


(** The sibling exits do stop the display stream: the catch block, here
    reached because the recorder cannot be made, stops every track of it (and
    still no track of the microphone). *)
Lemma catchStart_stops_display (displayStream : MediaStream) (err : JsError)
  (a : App) (x : MediaStreamTrack) :
  In x (getTracks displayStream) ->
  stopped (trace (catchStart (Some displayStream) err a)) x = true.
Proof.
  intro Hx. apply stopped_In. unfold catchStart.
  destruct (String.eqb (name err) "NotAllowedError"
            || String.eqb (name err) "PermissionDeniedError"
            || includes (message err) "Permission denied"
            || includes (message err) "user denied")%bool;
    destruct a; cbn; rewrite <- app_assoc;
    apply in_or_app; right; apply in_or_app; left; now apply in_map.
Qed.

(** *** Chunks *)

Lemma trace_emit (es : list Effect) (a : App) : trace (emit es a) = trace a ++ es.
Proof. now destruct a. Qed.

Lemma routedToDisk_app (tr1 tr2 : list Effect) :
  routedToDisk (tr1 ++ tr2) = routedToDisk tr1 ++ routedToDisk tr2.
Proof. apply flat_map_app. Qed.

Lemma written_app (tr1 tr2 : list Effect) :
  written (tr1 ++ tr2) = written tr1 ++ written tr2.
Proof. apply flat_map_app. Qed.

(** A quiet trace holds nothing of the sink. *)
Lemma quiet_inert (tr : list Effect) :
  quiet tr = true ->
  written tr = [] /\ routedToDisk tr = [] /\ forall d, flat_map (artifactOf d) tr = [].
Proof.
  induction tr as [|e tr IH]; [now repeat split|]. cbn [quiet forallb].
  intro H. apply andb_prop in H. destruct H as [He Hq].
  destruct (IH Hq) as (Hw & Hr & Ha).
  destruct e; try discriminate; cbn; repeat split; auto.
Qed.

(** An empty chunk changes nothing, whatever the target. *)
Lemma ondataavailable_empty (e : BlobEvent) (a : App) :
  size (data e) = 0%nat -> ondataavailable e a = a.
Proof. intro H. unfold ondataavailable. now rewrite H. Qed.

(** Without a disk target every non-empty chunk is appended to the buffer. *)
Lemma deliver_memory (evs : list BlobEvent) :
  forall a : App,
    writableStreamRef a = None ->
    writableStreamRef (deliver evs a) = None
    /\ chunksRef (deliver evs a) = chunksRef a ++ nonEmpty evs
    /\ trace (deliver evs a) = trace a.
Proof.
  induction evs as [|e evs IH]; intros a Hw.
  - cbn. now rewrite app_nil_r.
  - change (deliver (e :: evs) a) with (deliver evs (ondataavailable e a)).
    unfold nonEmpty. cbn [map filter]. fold (nonEmpty evs).
    unfold ondataavailable. rewrite Hw.
    destruct (0 <? size (data e))%nat.
    + destruct (IH (setChunksRef (chunksRef a ++ [data e]) a)) as (H1 & H2 & H3).
      { now destruct a. }
      rewrite H1, H2, H3. repeat split; destruct a; cbn; [|reflexivity].
      now rewrite <- app_assoc.
    + now apply IH.
Qed.

(** With a disk target every non-empty chunk is written to it; the chunks
    whose write is refused are appended to the buffer, and the target stays. *)
Lemma deliver_disk (evs : list BlobEvent) :
  forall (a : App) (w : FileSystemWritableFileStream),
    writableStreamRef a = Some w ->
    writableStreamRef (deliver evs a) = Some w
    /\ chunksRef (deliver evs a) = chunksRef a ++ keptInMemory evs
    /\ exists es,
         trace (deliver evs a) = trace a ++ es
         /\ routedToDisk es = nonEmpty evs
         /\ written es = keptOnDisk evs
         /\ forall d, flat_map (artifactOf d) es = [].
Proof.
  induction evs as [|e evs IH]; intros a w Hw.
  - cbn. rewrite app_nil_r. repeat split; try assumption.
    exists []. now rewrite app_nil_r.
  - change (deliver (e :: evs) a) with (deliver evs (ondataavailable e a)).
    unfold nonEmpty, keptInMemory, keptOnDisk. cbn [map filter].
    fold (nonEmpty evs). unfold ondataavailable. rewrite Hw.
    destruct (0 <? size (data e))%nat; cbn [andb].
    + destruct (writeRejects e); cbn [negb map].
      * destruct (IH (setChunksRef (chunksRef a ++ [data e])
                        (emit [Write (data e) false; Console "Write error:"] a)) w)
          as (H1 & H2 & es & H3 & H4 & H5 & H6).
        { now destruct a. }
        rewrite H1, H2, H3. split; [reflexivity|]. split.
        { destruct a; cbn. now rewrite <- app_assoc. }
        exists ([Write (data e) false; Console "Write error:"] ++ es).
        repeat split.
        -- destruct a; cbn. now rewrite <- app_assoc.
        -- now rewrite routedToDisk_app, H4.
        -- now rewrite written_app, H5.
        -- intro d. now rewrite flat_map_app, H6.
      * destruct (IH (emit [Write (data e) true] a) w)
          as (H1 & H2 & es & H3 & H4 & H5 & H6).
        { now destruct a. }
        rewrite H1, H2, H3. split; [reflexivity|]. split.
        { now destruct a. }
        exists ([Write (data e) true] ++ es).
        repeat split.
        -- destruct a; cbn. now rewrite <- app_assoc.
        -- now rewrite routedToDisk_app, H4.
        -- now rewrite written_app, H5.
        -- intro d. now rewrite flat_map_app, H6.
    + now apply IH.
Qed.




(** *** The finalized artifact *)

Lemma quiet_app (tr1 tr2 : list Effect) :
  quiet (tr1 ++ tr2) = quiet tr1 && quiet tr2.
Proof. apply forallb_app. Qed.

Lemma quiet_stops (s : MediaStream) : quiet (map StopTrack s) = true.
Proof. induction s as [|x s IH]; [reflexivity | exact IH]. Qed.

(** [stopAllStreams] only stops tracks and clears the interval. *)
Lemma trace_stopAllStreams (camera : option MediaStream) (a : App) :
  exists tail, trace (stopAllStreams camera a) = trace a ++ tail /\ quiet tail = true.
Proof.
  unfold stopAllStreams, stopTracks, getTracks.
  destruct a as [st se tl cam tm er nt sel rec ch itv str wr tr].
  exists (match str with Some s => map StopTrack s | None => [] end
          ++ match camera with Some s => map StopTrack s | None => [] end
          ++ match itv with Some id => [ClearInterval id] | None => [] end).
  destruct str as [s|], camera as [c|], itv as [id|]; cbn;
    rewrite <- ?app_assoc, ?app_nil_r; (split; [reflexivity|]);
    rewrite ?quiet_app, ?quiet_stops; reflexivity.
Qed.

Lemma subseq_refl {A} (l : list A) : subseq l l.
Proof. induction l; constructor; assumption. Qed.

Lemma kept_subseq (q : BlobEvent -> bool) (evs : list BlobEvent) :
  subseq (map data (filter (fun e => (0 <? size (data e))%nat && q e) evs))
         (nonEmpty evs).
Proof.
  unfold nonEmpty. induction evs as [|e evs IH]; [constructor|].
  cbn [map filter]. destruct (0 <? size (data e))%nat; cbn [andb]; [|exact IH].
  destruct (q e); cbn [map]; constructor; exact IH.
Qed.

Lemma keptOnDisk_all (evs : list BlobEvent) :
  (forall e, In e evs -> writeRejects e = false) -> keptOnDisk evs = nonEmpty evs.
Proof.
  unfold keptOnDisk, nonEmpty. induction evs as [|e evs IH]; [reflexivity|].
  intro H. cbn [map filter]. rewrite (H e (or_introl eq_refl)). cbn [negb].
  rewrite andb_true_r.
  destruct (0 <? size (data e))%nat; cbn [map]; rewrite IH; auto;
    intros e' He'; apply H; now right.
Qed.

(** What [onstop] hands out, from the state it finds. *)
Lemma artifacts_onstop (cl : Closure) (closeRejects : bool) (a : App) :
  (forall d, flat_map (artifactOf d) (trace a) = []) ->
  artifacts (trace (onstop cl closeRejects a))
  = match writableStreamRef a with
    | Some _ =>
      if closeRejects
      then match chunksRef a with
           | [] => []
           | _ :: _ => [Downloaded true (newBlob (chunksRef a) (selectedMimeType cl))]
           end
      else [DiskFile (written (trace a))]
    | None =>
      match chunksRef a with
      | [] => []
      | _ :: _ => [Downloaded false (newBlob (chunksRef a) (selectedMimeType cl))]
      end
    end.
Proof.
  intro Hq. unfold onstop.
  match goal with
  | |- context [stopAllStreams ?c ?x] =>
    destruct (trace_stopAllStreams c x) as (tail & Ht & Hqt);
    assert (Htr : forall u v, trace (setIsSelecting u (setTimer v (stopAllStreams c x)))
                              = trace (stopAllStreams c x))
      by (intros; now destruct (stopAllStreams c x));
    rewrite Htr, Ht; clear Htr Ht
  end.
  destruct (quiet_inert tail Hqt) as (Hw & _ & Ha).
  destruct a as [st se tl cam tm er nt sel rec ch itv str wr tr].
  cbn [trace writableStreamRef chunksRef] in *.
  unfold artifacts.
  destruct wr as [w|]; [destruct closeRejects|]; destruct ch as [|b ch]; cbn [emit setState setNotification setWritableStreamRef trace chunksRef translations];
    rewrite ?written_app, ?flat_map_app, ?Hq, ?Ha, ?Hw; cbn; rewrite ?app_nil_r;
    reflexivity.
Qed.

(** C10: an empty chunk is neither written nor buffered, and whatever a
    session hands out at its end is assembled from non-empty chunks only, in
    the order of their arrival.  Without a disk target the downloaded blob is
    made of all the non-empty chunks; with one, the closed file holds the
    non-empty chunks whose write went through. *)
Theorem only_nonempty_chunks_in_order (cl : Closure) (evs : list BlobEvent)
  (closeRejects : bool) (a : App) :
  chunksRef a = [] ->
  quiet (trace a) = true ->
  (forall e a', size (data e) = 0%nat -> ondataavailable e a' = a')
  /\ (forall art,
        In art (artifacts (trace (session cl evs closeRejects a))) ->
        exists cs,
          subseq cs (nonEmpty evs)
          /\ (art = DiskFile cs
              \/ exists k, art = Downloaded k (newBlob cs (selectedMimeType cl))))
  /\ (writableStreamRef a = None ->
      artifacts (trace (session cl evs closeRejects a))
      = match nonEmpty evs with
        | [] => []
        | _ :: _ => [Downloaded false (newBlob (nonEmpty evs) (selectedMimeType cl))]
        end)
  /\ (writableStreamRef a <> None -> closeRejects = false ->
      artifacts (trace (session cl evs closeRejects a)) = [DiskFile (keptOnDisk evs)]).
Proof.
  intros Hch Hq. destruct (quiet_inert _ Hq) as (Hw0 & _ & Ha0).
  split; [intros e a' He; now apply ondataavailable_empty|].
  assert (Hmem : writableStreamRef a = None ->
                 artifacts (trace (session cl evs closeRejects a))
                 = match nonEmpty evs with
                   | [] => []
                   | _ :: _ => [Downloaded false (newBlob (nonEmpty evs) (selectedMimeType cl))]
                   end).
  { intro Hn. destruct (deliver_memory evs a Hn) as (H1 & H2 & H3).
    unfold session. rewrite artifacts_onstop by (now rewrite H3).
    rewrite H1, H2, Hch. reflexivity. }
  assert (Hdisk : forall w, writableStreamRef a = Some w ->
                  artifacts (trace (session cl evs closeRejects a))
                  = if closeRejects
                    then match keptInMemory evs with
                         | [] => []
                         | _ :: _ => [Downloaded true (newBlob (keptInMemory evs) (selectedMimeType cl))]
                         end
                    else [DiskFile (keptOnDisk evs)]).
  { intros w Hs. destruct (deliver_disk evs a w Hs) as (H1 & H2 & es & H3 & _ & H5 & H6).
    unfold session. rewrite artifacts_onstop.
    - rewrite H1, H2, H3, Hch, written_app, Hw0, H5. reflexivity.
    - intro d. now rewrite H3, flat_map_app, Ha0, H6. }
  split; [|split; [exact Hmem|]].
  - intros art Hin. destruct (writableStreamRef a) as [w|] eqn:Hs.
    + rewrite (Hdisk w eq_refl) in Hin. destruct closeRejects.
      * exists (keptInMemory evs). split; [apply kept_subseq|].
        destruct (keptInMemory evs); [contradiction|].
        destruct Hin as [<- | []]. right. now exists true.
      * exists (keptOnDisk evs). split; [apply kept_subseq|].
        destruct Hin as [<- | []]. now left.
    + rewrite (Hmem eq_refl) in Hin.
      exists (nonEmpty evs). split; [apply subseq_refl|].
      destruct (nonEmpty evs); [contradiction|].
      destruct Hin as [<- | []]. right. now exists false.
  - intros Hs ->. destruct (writableStreamRef a) as [w|] eqn:Hs'; [|contradiction].
    exact (Hdisk w eq_refl).
Qed.

Lemma only_nonempty_chunks_in_order_witness :
  let evs := [Scenarios.goodWrite Scenarios.chunkA;
              Scenarios.goodWrite Scenarios.emptyChunk;
              Scenarios.goodWrite Scenarios.chunkB] in
  (forall e a', size (data e) = 0%nat -> ondataavailable e a' = a')
  /\ (forall art,
        In art (artifacts (trace (session Scenarios.closure evs false
                                    Scenarios.recordingToMemory))) ->
        exists cs,
          subseq cs (nonEmpty evs)
          /\ (art = DiskFile cs
              \/ exists k, art = Downloaded k (newBlob cs Scenarios.webm)))
  /\ (writableStreamRef Scenarios.recordingToMemory = None ->
      artifacts (trace (session Scenarios.closure evs false Scenarios.recordingToMemory))
      = [Downloaded false (newBlob [Scenarios.chunkA; Scenarios.chunkB] Scenarios.webm)])
  /\ (writableStreamRef Scenarios.recordingToMemory <> None -> false = false ->
      artifacts (trace (session Scenarios.closure evs false Scenarios.recordingToMemory))
      = [DiskFile (keptOnDisk evs)]).
Proof.
  apply (only_nonempty_chunks_in_order Scenarios.closure
           [Scenarios.goodWrite Scenarios.chunkA;
            Scenarios.goodWrite Scenarios.emptyChunk;
            Scenarios.goodWrite Scenarios.chunkB]
           false Scenarios.recordingToMemory); reflexivity.
Defined.

End RecorderFacts.

(** ** The trim editor *)
Module PreviewFacts.

Import JSNum JSNumFacts Preview.
Local Open Scope Q_scope.

(** With a blob of unknown length, the editor opens on the full range taken
    from the recorded duration. *)
Lemma metadata_fallback (p : Preview) (v : Video.HTMLVideoElement) :
  videoRef p = Some v ->
  isFinite (Video.duration v) = false ->
  trimStart (handleLoadedMetadata p) = Fin 0
  /\ trimEnd (handleLoadedMetadata p) = (Types.duration (media p) / Fin 1000)%js.
Proof.
  intros Hv Hf. unfold handleLoadedMetadata. rewrite Hv, Hf.
  destruct p; split; reflexivity.
Qed.

Example editing_window : window Scenarios.editing = Some (0, 10000 / 1000).
Proof. reflexivity. Qed.

(** *** Trimming *)

Lemma step_media (q : Preview) (ev : Event) : media (step q ev) = media q.
Proof.
  destruct q as [m vr pl ed ts te du pr ct jb up].
  destruct ev as [time| | |b|u n]; cbn;
    unfold handleTimeUpdate, stopHandler, ondataavailable, onstop, seekVideo, pauseVideo;
    cbn;
    repeat match goal with
           | |- context [match ?x with _ => _ end] => destruct x; cbn
           end; reflexivity.
Qed.

Lemma run_media (evs : list Event) : forall q, media (run evs q) = media q.
Proof.
  induction evs as [|ev evs IH]; intro q; [reflexivity|].
  change (run (ev :: evs) q) with (run evs (step q ev)).
  now rewrite IH, step_media.
Qed.






(** *** The selection handles *)




End PreviewFacts.

(** ** The audio mixer, further *)
Module AudioMixMore.

Import Media AudioMix MixPolicy.
Local Open Scope string_scope.
Local Open Scope list_scope.

(** X1. Mixing is best effort, input by input: the sources connected to the
    destination are exactly the inputs that have audio and whose source node
    can be made, desktop before voice; an input that fails costs one warning
    and does not keep the other from being connected. *)
Theorem mix_is_best_effort (ctx : AudioContext) (desktopStream : MediaStream)
  (voiceStream : option MediaStream) :
  let g := snd (mergeAudioStreams ctx desktopStream voiceStream) in
  connected g = filter (mixable ctx) (inputs desktopStream voiceStream)
  /\ List.length (warnings g)
     = ((if suspended ctx && resumeRejects ctx then 1 else 0)
        + List.length (filter (refused ctx) (inputs desktopStream voiceStream)))%nat.
Proof.
  unfold mergeAudioStreams, inputs, mixable, refused, hasAudio, tryConnect,
    createMediaStreamSource.
  destruct voiceStream as [voice|]; cbn [snd filter].
  - destruct (suspended ctx && resumeRejects ctx)%bool,
      (getAudioTracks desktopStream) as [|x xs],
      (sourceError ctx desktopStream),
      (getAudioTracks voice) as [|y ys],
      (sourceError ctx voice);
      cbn; split; reflexivity.
  - destruct (suspended ctx && resumeRejects ctx)%bool,
      (getAudioTracks desktopStream) as [|x xs],
      (sourceError ctx desktopStream);
      cbn; split; reflexivity.
Qed.

End AudioMixMore.

(** ** The clock display *)
Module FormatTimeFacts.

Import JSNum FormatTime.
Local Open Scope string_scope.

Lemma Qfloor_unique (k : Z) (y : Q) :
  (inject_Z k <= y)%Q -> (y < inject_Z (k + 1))%Q -> Qfloor y = k.
Proof.
  intros Hl Hu.
  pose proof (Qfloor_le y) as H1. pose proof (Qlt_floor y) as H2.
  assert (inject_Z k < inject_Z (Qfloor y + 1))%Q as A by lra.
  assert (inject_Z (Qfloor y) < inject_Z (k + 1))%Q as B by lra.
  rewrite <- Zlt_Qlt in A, B. lia.
Qed.

Lemma floor_div60 (q : Q) : Qfloor (q / 60) = (Qfloor q / 60)%Z.
Proof.
  pose proof (Qfloor_le q) as H1. pose proof (Qlt_floor q) as H2.
  set (m := Qfloor q) in *. set (k := (m / 60)%Z).
  assert (60 * k <= m /\ m + 1 <= 60 * (k + 1))%Z as [A B].
  { subst k. pose proof (Z.div_mod m 60 ltac:(lia)).
    pose proof (Z.mod_pos_bound m 60 ltac:(lia)). lia. }
  rewrite Zle_Qle in A, B. rewrite inject_Z_mult in A, B.
  change (inject_Z 60) with 60%Q in A, B.
  apply Qfloor_unique.
  - apply Qle_shift_div_l; lra.
  - apply Qlt_shift_div_r; lra.
Qed.

Lemma floor_rem60 (q : Q) :
  Qfloor (q - 60 * inject_Z (Qfloor (q / 60))) = (Qfloor q mod 60)%Z.
Proof.
  rewrite floor_div60.
  pose proof (Qfloor_le q) as H1. pose proof (Qlt_floor q) as H2.
  set (m := Qfloor q) in *. set (k := (m / 60)%Z).
  assert (m mod 60 = m - 60 * k)%Z as ->.
  { subst k. pose proof (Z.div_mod m 60 ltac:(lia)). lia. }
  apply Qfloor_unique.
  - unfold Z.sub. rewrite inject_Z_plus, inject_Z_opp, inject_Z_mult.
    change (inject_Z 60) with 60%Q. lra.
  - replace (m - 60 * k + 1)%Z with ((m + 1) + - (60 * k))%Z by lia.
    rewrite (inject_Z_plus (m + 1)), inject_Z_opp, inject_Z_mult.
    change (inject_Z 60) with 60%Q. lra.
Qed.

Lemma truncate_nonneg (q : Q) : (0 <= q)%Q -> truncate q = Qfloor q.
Proof.
  intro H. unfold truncate. apply Qle_bool_iff in H. now rewrite H.
Qed.

Lemma formatTime_fields (r : Q) :
  (0 <= r)%Q ->
  formatTime (Fin r)
  = padStart 2 (decimal (Qfloor r / 60)) ++ ":" ++ padStart 2 (decimal (Qfloor r mod 60)).
Proof.
  intro Hr. unfold formatTime.
  assert (Fin r / Fin 60 = Fin (r / 60))%js as -> by reflexivity.
  assert (jrem (Fin r) (Fin 60)
          = Fin (r - 60 * inject_Z (Qfloor (r / 60)))) as ->.
  { unfold jrem. change (Qeq_bool 60 0) with false. cbv iota.
    rewrite truncate_nonneg; [reflexivity|].
    apply Qle_shift_div_l; lra. }
  unfold floorString. now rewrite floor_rem60, floor_div60.
Qed.

(** X2. From zero on, the display only depends on the whole seconds: the
    minutes field is their quotient by 60, the seconds field their remainder,
    each padded to two characters; the fraction of a second never shows. *)
Theorem formatTime_whole_seconds (q : Q) :
  (0 <= q)%Q ->
  formatTime (Fin q)
  = padStart 2 (decimal (Qfloor q / 60)) ++ ":" ++ padStart 2 (decimal (Qfloor q mod 60))
  /\ formatTime (Fin q) = formatTime (ofZ (Qfloor q)).
Proof.
  intro Hq. split; [now apply formatTime_fields|].
  rewrite (formatTime_fields q Hq). unfold ofZ. rewrite formatTime_fields.
  - now rewrite Qfloor_Z.
  - change 0%Q with (inject_Z 0). rewrite <- Zle_Qle.
    change 0%Z with (Qfloor 0). now apply Qfloor_resp_le.
Qed.

Lemma padStart_below_hundred (k : Z) :
  (0 <= k < 100)%Z -> padStart 2 (decimal k) = twoDigits k.
Proof.
  intro Hk.
  assert (T : forallb (fun n => String.eqb (padStart 2 (decimal (Z.of_nat n)))
                                           (twoDigits (Z.of_nat n)))
                      (seq 0 100) = true) by (vm_compute; reflexivity).
  rewrite forallb_forall in T.
  specialize (T (Z.to_nat k)).
  rewrite Z2Nat.id in T by lia. apply String.eqb_eq, T, in_seq. lia.
Qed.

Lemma twoDigits_length (k : Z) : String.length (twoDigits k) = 2%nat.
Proof. reflexivity. Qed.

(** X3. Below one hundred minutes the display is exactly MM:SS: two digits of
    minutes, a colon, two digits of seconds, and the two fields read back as
    the whole seconds. *)
Theorem formatTime_clock (q : Q) :
  (0 <= q)%Q -> (q < 6000)%Q ->
  let m := (Qfloor q / 60)%Z in
  let s := (Qfloor q mod 60)%Z in
  formatTime (Fin q) = twoDigits m ++ ":" ++ twoDigits s
  /\ String.length (formatTime (Fin q)) = 5%nat
  /\ (0 <= m < 100)%Z /\ (0 <= s < 60)%Z
  /\ (m * 60 + s = Qfloor q)%Z.
Proof.
  intros H0 H1 m s.
  assert (0 <= Qfloor q < 6000)%Z as Hf.
  { split.
    - change 0%Z with (Qfloor 0). now apply Qfloor_resp_le.
    - pose proof (Qfloor_le q) as Hle.
      assert (inject_Z (Qfloor q) < inject_Z 6000)%Q as A by (change (inject_Z 6000) with 6000%Q; lra).
      now rewrite <- Zlt_Qlt in A. }
  assert (0 <= m < 100)%Z as Hm.
  { subst m. split; [apply Z.div_pos; lia | apply Z.div_lt_upper_bound; lia]. }
  assert (0 <= s < 60)%Z as Hs by (subst s; apply Z.mod_pos_bound; lia).
  assert (formatTime (Fin q) = twoDigits m ++ ":" ++ twoDigits s) as E.
  { rewrite (formatTime_fields q H0).
    fold m s. rewrite !padStart_below_hundred by lia. reflexivity. }
  repeat split; try lia; try assumption.
  - rewrite E. reflexivity.
  - subst m s. pose proof (Z.div_mod (Qfloor q) 60 ltac:(lia)). lia.
Qed.

Lemma formatTime_clock_witness :
  formatTime (Fin (7511 # 100)) = twoDigits 1 ++ ":" ++ twoDigits 15
  /\ String.length (formatTime (Fin (7511 # 100))) = 5%nat
  /\ (0 <= 1 < 100)%Z /\ (0 <= 15 < 60)%Z
  /\ (1 * 60 + 15 = 75)%Z.
Proof.
  apply (formatTime_clock (7511 # 100)); [discriminate | reflexivity].
Defined.

Lemma formatTime_whole_seconds_witness :
  formatTime (Fin (7511 # 100))
  = padStart 2 (decimal 1) ++ ":" ++ padStart 2 (decimal 15)
  /\ formatTime (Fin (7511 # 100)) = formatTime (ofZ 75).
Proof.
  apply (formatTime_whole_seconds (7511 # 100)). discriminate.
Defined.

End FormatTimeFacts.

(** ** The compositor, further *)
Module CompositorMore.

Import JSNum JSNumFacts Compositor CanvasGeometry.
Local Open Scope Q_scope.

Lemma draw_trace (t : Tick) (c : VideoCompositor) :
  ctx c <> None -> videoWidth t <> 0%N -> videoHeight t <> 0%N ->
  let resize := (negb (canvasWidth c =? videoWidth t)%N
                 || negb (canvasHeight c =? videoHeight t)%N)%bool in
  snd (draw t c)
  = ((if resize then [Resize (videoWidth t) (videoHeight t)] else [])
       ++ (Call (drawImage screenVideo (Fin 0) (Fin 0)
                   (ofN (videoWidth t)) (ofN (videoHeight t)))
           :: drawOverlay t) ++ [RequestAnimationFrame])%list
  /\ canvasWidth (fst (draw t c)) = videoWidth t
  /\ canvasHeight (fst (draw t c)) = videoHeight t.
Proof.
  intros Hc Hw Hh resize. unfold draw.
  destruct (ctx c) as [k|]; [|contradiction].
  pose proof Hw as Hw'. pose proof Hh as Hh'.
  apply N.eqb_neq in Hw', Hh'. rewrite Hw', Hh'. cbn [negb andb].
  fold resize. destruct resize eqn:E; cbn [fst snd canvasWidth canvasHeight].
  - repeat split.
  - split; [reflexivity|]. subst resize.
    apply orb_false_elim in E. destruct E as [E1 E2].
    apply negb_false_iff in E1, E2. apply N.eqb_eq in E1, E2. now split.
Qed.

Lemma draw_keeps_ctx (t : Tick) (c : VideoCompositor) :
  ctx (fst (draw t c)) = ctx c.
Proof.
  unfold draw. destruct (ctx c) eqn:E; [|exact E]. cbn [fst ctx].
  match goal with |- context [if ?b then _ else _] => destruct b end;
    cbn [ctx]; now rewrite ?E.
Qed.

Lemma no_resize_after_screen (t : Tick) (op : CanvasOp) (w h : N) :
  ~ In (Resize w h) ((Call op :: drawOverlay t) ++ [RequestAnimationFrame])%list.
Proof.
  unfold drawOverlay. cbn. intuition discriminate.
Qed.

(** X4. The canvas is resized lazily: after a tick that draws, the canvas has the
    resolution of the screen video; the tick resizes it exactly when it had
    another size, and a following tick at the same resolution does not resize
    again. *)
Theorem canvas_follows_resolution (t t' : Tick) (c : VideoCompositor) :
  ctx c <> None -> videoWidth t <> 0%N -> videoHeight t <> 0%N ->
  videoWidth t' = videoWidth t -> videoHeight t' = videoHeight t ->
  canvasWidth (fst (draw t c)) = videoWidth t
  /\ canvasHeight (fst (draw t c)) = videoHeight t
  /\ (In (Resize (videoWidth t) (videoHeight t)) (snd (draw t c))
      <-> canvasWidth c <> videoWidth t \/ canvasHeight c <> videoHeight t)
  /\ (forall w h, ~ In (Resize w h) (snd (draw t' (fst (draw t c))))).
Proof.
  intros Hc Hw Hh Ew Eh.
  destruct (draw_trace t c Hc Hw Hh) as (Htr & Hcw & Hch).
  split; [exact Hcw|]. split; [exact Hch|]. split.
  - rewrite Htr. split.
    + intro Hin.
      destruct (negb (canvasWidth c =? videoWidth t)%N
                || negb (canvasHeight c =? videoHeight t)%N)%bool eqn:E.
      * apply orb_true_iff in E. destruct E as [E | E];
          apply negb_true_iff, N.eqb_neq in E; auto.
      * exfalso. cbn [app] in Hin. exact (no_resize_after_screen _ _ _ _ Hin).
    + intro Hne.
      assert (negb (canvasWidth c =? videoWidth t)%N
              || negb (canvasHeight c =? videoHeight t)%N = true)%bool as ->.
      { apply orb_true_iff. destruct Hne as [H | H]; [left | right];
          now apply negb_true_iff, N.eqb_neq. }
      now left.
  - intros w h Hin.
    assert (Hc' : ctx (fst (draw t c)) <> None) by now rewrite draw_keeps_ctx.
    rewrite <- Ew in Hw. rewrite <- Eh in Hh.
    destruct (draw_trace t' (fst (draw t c)) Hc' Hw Hh) as (Htr' & _ & _).
    rewrite Htr' in Hin. rewrite Hcw, Hch, Ew, Eh, !N.eqb_refl in Hin.
    cbn [negb orb app] in Hin. exact (no_resize_after_screen _ _ _ _ Hin).
Qed.

Lemma canvas_follows_resolution_witness :
  canvasWidth (fst (draw Scenarios.hdTick Scenarios.freshCompositor)) = 1920%N
  /\ canvasHeight (fst (draw Scenarios.hdTick Scenarios.freshCompositor)) = 1080%N
  /\ (In (Resize 1920 1080) (snd (draw Scenarios.hdTick Scenarios.freshCompositor))
      <-> 300%N <> 1920%N \/ 150%N <> 1080%N)
  /\ (forall w h, ~ In (Resize w h)
                    (snd (draw Scenarios.hdTick
                            (fst (draw Scenarios.hdTick Scenarios.freshCompositor))))).
Proof.
  apply (canvas_follows_resolution Scenarios.hdTick Scenarios.hdTick
           Scenarios.freshCompositor);
    [discriminate | discriminate | discriminate | reflexivity | reflexivity].
Defined.

Lemma scale_truthy (w : N) (vw : Z) :
  w <> 0%N -> truthy (ofN w / ofZ vw)%js = true.
Proof.
  intro Hw. pose proof (inject_N_pos w Hw) as Pw.
  unfold ofN, ofZ, jdiv, signed.
  destruct (Qeq_bool (inject_Z vw) 0) eqn:E.
  - rewrite Qeq_bool_false by lra.
    assert (Qle_bool 0 (inject_Z (Z.of_N w)) = true) as -> by (apply Qle_bool_iff; lra).
    reflexivity.
  - cbn. apply negb_true_iff, Qeq_bool_false. intro H.
    apply Qeq_bool_neq in E.
    apply E. assert (inject_Z (Z.of_N w) == 0 * inject_Z vw) as A.
    { rewrite <- H. field. exact E. }
    lra.
Qed.

(** X5. The fallback [scaleX || 1] never applies on a tick that draws: the width
    of the screen video is not zero there, so the scale is never zero or NaN.
    The bubble and its border are sized by [width / innerWidth] itself; with
    a viewport of width zero the radius is infinite. *)
Theorem scale_fallback_never_applies (t : Tick) (c : VideoCompositor) :
  ctx c <> None -> videoWidth t <> 0%N -> videoHeight t <> 0%N ->
  let scaleX := (ofN (videoWidth t) / ofZ (innerWidth t))%js in
  let half := (bubbleFootprint * scaleX / Fin 2)%js in
  In (Call (lineWidth (Fin 4 * scaleX)%js)) (snd (draw t c))
  /\ (forall cx cy r, In (cx, cy, r) (circles (snd (draw t c))) -> r = half)
  /\ (innerWidth t = 0%Z -> half = PInf).
Proof.
  intros Hc Hw Hh scaleX half.
  destruct (draw_trace t c Hc Hw Hh) as (Htr & _ & _). rewrite Htr.
  assert (Hs : jor scaleX (Fin 1) = scaleX).
  { unfold jor. subst scaleX. now rewrite scale_truthy. }
  split; [|split].
  - apply in_or_app. right. apply in_or_app. left. right.
    unfold drawOverlay. fold scaleX. rewrite Hs. cbn. tauto.
  - intros cx cy r Hin. rewrite !CompositorFacts.circles_app in Hin.
    assert (Hpre : forall b : bool,
               circles (if b then [Resize (videoWidth t) (videoHeight t)] else []) = [])
      by (intros []; reflexivity).
    rewrite Hpre in Hin.
    unfold drawOverlay in Hin. fold scaleX in Hin. rewrite Hs in Hin.
    cbn in Hin. destruct Hin as [Hin | [Hin | []]]; now inversion Hin.
  - intro Hz. subst half scaleX. rewrite Hz. unfold ofN, ofZ.
    pose proof (inject_N_pos _ Hw) as Pw.
    unfold jdiv at 2. change (Qeq_bool (inject_Z 0) 0) with true. cbv iota.
    unfold signed. rewrite Qeq_bool_false by lra.
    assert (Qle_bool 0 (inject_Z (Z.of_N (videoWidth t))) = true) as ->
      by (apply Qle_bool_iff; lra).
    reflexivity.
Qed.

Lemma scale_fallback_never_applies_witness :
  let scaleX := (ofN 1920 / ofZ 0)%js in
  let half := (bubbleFootprint * scaleX / Fin 2)%js in
  In (Call (lineWidth (Fin 4 * scaleX)%js))
     (snd (draw Scenarios.zeroViewportTick Scenarios.freshCompositor))
  /\ (forall cx cy r,
        In (cx, cy, r) (circles (snd (draw Scenarios.zeroViewportTick
                                        Scenarios.freshCompositor))) ->
        r = half)
  /\ (0%Z = 0%Z -> half = PInf).
Proof.
  apply (scale_fallback_never_applies Scenarios.zeroViewportTick Scenarios.freshCompositor);
    discriminate.
Defined.

Lemma canvasCalls_app (es fs : list Effect) :
  canvasCalls (es ++ fs) = (canvasCalls es ++ canvasCalls fs)%list.
Proof. apply flat_map_app. Qed.

(** X6. The camera image is mirrored into the box of the circle.  On a tick that
    draws with a positive viewport, under the translation and the flip in
    force when the camera is drawn, the image's left edge lands on the right
    edge of the square that bounds the clip circle and its right edge on the
    left edge, top and bottom in place; the clip circle and the border ring
    are both drawn untransformed, at the same place. *)
Theorem camera_mirrored_into_circle_box (w h : N) (vw vh : Z) (px py : Q)
  (fid : nat) (c : VideoCompositor) :
  ctx c <> None -> w <> 0%N -> h <> 0%N -> (0 < vw)%Z -> (0 < vh)%Z ->
  let t := {| videoWidth := w; videoHeight := h;
              innerWidth := vw; innerHeight := vh;
              overlayPos := (Fin px, Fin py); frameId := fid |} in
  exists cx cy r ax ay bx by' : Q,
    placedCircles (snd (draw t c))
    = [((Fin cx, Fin cy, Fin r), identity); ((Fin cx, Fin cy, Fin r), identity)]
    /\ cameraBoxes (snd (draw t c)) = [((Fin ax, Fin ay), (Fin bx, Fin by'))]
    /\ 0 < r
    /\ ax == cx + r /\ bx == cx - r
    /\ ay == cy - r /\ by' == cy + r.
Proof.
  intros Hc Hw Hh Hvw Hvh t.
  pose proof (inject_N_pos w Hw) as Pw.
  pose proof (inject_Z_pos vw Hvw) as Pvw. pose proof (inject_Z_pos vh Hvh) as Pvh.
  set (scaleX := inject_Z (Z.of_N w) / inject_Z vw).
  set (scaleY := inject_Z (Z.of_N h) / inject_Z vh).
  pose proof (Qdiv_pos _ _ Pw Pvw) as Psx. fold scaleX in Psx.
  assert (Nvw : ~ inject_Z vw == 0) by lra.
  assert (Nvh : ~ inject_Z vh == 0) by lra.
  assert (Nsx : ~ scaleX == 0) by lra.
  destruct (draw_trace t c Hc Hw Hh) as (Htr & _ & _).
  unfold placedCircles, cameraBoxes. rewrite Htr, !canvasCalls_app.
  assert (Hpre : forall b : bool,
             canvasCalls (if b then [Resize (videoWidth t) (videoHeight t)] else []) = [])
    by (intros []; reflexivity).
  rewrite Hpre. clear Htr Hpre.
  unfold drawOverlay, ofN, ofZ, bubbleFootprint. subst t.
  cbn [videoWidth videoHeight innerWidth innerHeight overlayPos fst snd].
  rewrite !jdiv_fin by assumption. fold scaleX scaleY.
  rewrite jor_fin by assumption.
  cbn [jmul]. rewrite !jdiv_fin by lra.
  cbn [canvasCalls flat_map app placed translated scaled identity applyTo
       sx tx sy ty fst snd jmul jadd].
  do 7 eexists. split; [reflexivity|]. split; [reflexivity|].
  split; [apply Qdiv_pos; lra|].
  repeat split; field.
Qed.

Lemma camera_mirrored_into_circle_box_witness :
  exists cx cy r ax ay bx by' : Q,
    placedCircles (snd (draw Scenarios.hdTick Scenarios.freshCompositor))
    = [((Fin cx, Fin cy, Fin r), identity); ((Fin cx, Fin cy, Fin r), identity)]
    /\ cameraBoxes (snd (draw Scenarios.hdTick Scenarios.freshCompositor))
       = [((Fin ax, Fin ay), (Fin bx, Fin by'))]
    /\ 0 < r
    /\ ax == cx + r /\ bx == cx - r
    /\ ay == cy - r /\ by' == cy + r.
Proof.
  apply (camera_mirrored_into_circle_box 1920 1080 1500 900 20 20 1
           Scenarios.freshCompositor);
    [discriminate | discriminate | discriminate | reflexivity | reflexivity].
Defined.

End CompositorMore.

(** ** The recording session, further *)
Module RecorderMore.

Import Media AudioMix Types Recorder Controls.
Local Open Scope string_scope.
Local Open Scope list_scope.

Lemma find_first {A} (f : A -> bool) (l : list A) (x : A) :
  find f l = Some x ->
  exists l1 l2, l = l1 ++ x :: l2 /\ f x = true /\ forall y, In y l1 -> f y = false.
Proof.
  induction l as [|a l IH]; [discriminate|]. cbn [find].
  destruct (f a) eqn:E.
  - intro H. injection H as <-. exists [], l. repeat split; [assumption | intros y []].
  - intro H. destruct (IH H) as (l1 & l2 & -> & Hx & Hl).
    exists (a :: l1), l2. repeat split; [assumption|].
    intros y [<- | Hy]; auto.
Qed.

Lemma find_none_all {A} (f : A -> bool) (l : list A) :
  find f l = None -> forall y, In y l -> f y = false.
Proof.
  induction l as [|a l IH]; [intros _ y []|]. cbn [find].
  destruct (f a) eqn:E; [discriminate|].
  intros H y [<- | Hy]; auto.
Qed.

(** X7. The recorder format is the first supported entry of the preference list,
    most capable first; when the browser supports none of them it is
    [video/webm] all the same.  Either way it is an entry of the list. *)
Theorem mime_type_by_preference (env : StartEnv) :
  let ty := getSupportedMimeType env in
  In ty mimeTypes
  /\ ((exists before after,
          mimeTypes = before ++ ty :: after
          /\ isTypeSupported env ty = true
          /\ forall y, In y before -> isTypeSupported env y = false)
      \/ (ty = "video/webm"
          /\ forall y, In y mimeTypes -> isTypeSupported env y = false)).
Proof.
  unfold getSupportedMimeType.
  destruct (find (isTypeSupported env) mimeTypes) as [ty|] eqn:E; cbn zeta.
  - split; [now apply find_some in E|]. left.
    destruct (find_first _ _ _ E) as (l1 & l2 & H1 & H2 & H3). eauto.
  - split; [cbn; tauto|]. right. split; [reflexivity|].
    now apply find_none_all.
Qed.

(** *** Stopped tracks *)

Lemma trace_emit_more (es : list Effect) (a : App) : trace (emit es a) = trace a ++ es.
Proof. now destruct a. Qed.

Lemma stops_app (tr1 tr2 : list Effect) : stops (tr1 ++ tr2) = stops tr1 ++ stops tr2.
Proof. apply flat_map_app. Qed.

Lemma stops_console (ws : list string) : stops (map Console ws) = [].
Proof. induction ws as [|w ws IH]; [reflexivity | exact IH]. Qed.

Lemma stops_stopTracks (s : MediaStream) : stops (map StopTrack s) = s.
Proof.
  induction s as [|x s IH]; [reflexivity|].
  change (stops (map StopTrack (x :: s))) with (x :: stops (map StopTrack s)).
  now rewrite IH.
Qed.

Lemma stopped_stops (tr : list Effect) (x : MediaStreamTrack) :
  stopped tr x = existsb (fun y => Nat.eqb (tid y) (tid x)) (stops tr).
Proof.
  unfold stopped, stops. induction tr as [|e tr IH]; [reflexivity|].
  cbn [existsb flat_map]. rewrite existsb_app, IH. destruct e; cbn; try reflexivity.
  now rewrite orb_false_r.
Qed.

Lemma stopped_same (tr tr' : list Effect) (x : MediaStreamTrack) :
  stops tr' = stops tr -> stopped tr' x = stopped tr x.
Proof. intro H. now rewrite !stopped_stops, H. Qed.

Lemma stopped_of_stops (tr : list Effect) (x : MediaStreamTrack) :
  In x (stops tr) -> stopped tr x = true.
Proof.
  intro H. rewrite stopped_stops. apply existsb_exists.
  exists x. split; [assumption | apply Nat.eqb_refl].
Qed.

(** *** Reaching RECORDING *)

Lemma trace_setStreamRef v (a : App) : trace (setStreamRef v a) = trace a.
Proof. now destruct a. Qed.

Lemma active_intro (env : StartEnv) (a : App) (s : MediaStream) (x : MediaStreamTrack) :
  In x s ->
  existsb (Nat.eqb (tid x)) (endedTracks env) = false ->
  stopped (trace a) x = false ->
  active env a s = true.
Proof.
  intros Hin He Hs. unfold active. apply existsb_exists. exists x.
  split; [assumption|]. unfold live. now rewrite He, Hs.
Qed.

Lemma setupRecorder_active (env : StartEnv) (displayStream : MediaStream)
  (micStream : option MediaStream) (a : App) :
  someLive env displayStream a ->
  active env
    (setStreamRef (Some (combinedOf env displayStream))
       (emit (map Console
                (warnings (snd (mergeAudioStreams (audioContext env) displayStream micStream))))
          a))
    (combinedOf env displayStream) = true.
Proof.
  intros (x & Hin & He & Hs). apply (active_intro _ _ _ x Hin He).
  rewrite trace_setStreamRef, trace_emit_more.
  erewrite stopped_same; [exact Hs|].
  now rewrite stops_app, stops_console, app_nil_r.
Qed.

Lemma setupRecorder_records (env : StartEnv) (displayStream : MediaStream)
  (micStream : option MediaStream) (a : App) :
  someLive env displayStream a ->
  recorderCtorError env = None ->
  recorderStartError env = None ->
  let a' := setupRecorder env displayStream micStream a in
  state a' = RECORDING
  /\ mediaRecorderRef a'
     = Some {| stream := combinedOf env displayStream;
               mimeType := getSupportedMimeType env |}
  /\ streamRef a' = Some (combinedOf env displayStream)
  /\ timer a' = 0%nat
  /\ timerIntervalRef a' = Some (intervalId env)
  /\ chunksRef a' = chunksRef a
  /\ error a' = error a
  /\ isSelecting a' = isSelecting a
  /\ writableStreamRef a' = writableStreamRef a
  /\ stops (trace a') = stops (trace a).
Proof.
  intros Hlive Hc Hs. unfold setupRecorder.
  pose proof (setupRecorder_active env displayStream micStream a Hlive) as Hact.
  destruct (mergeAudioStreams (audioContext env) displayStream micStream)
    as [combined graph] eqn:E.
  assert (combined = combinedOf env displayStream) as ->.
  { unfold mergeAudioStreams in E. now injection E as <- _. }
  cbn [snd] in Hact. rewrite Hact, Hc, Hs. cbn [negb].
  unfold startTimer, initializeCamera.
  destruct a as [st [sc em sa] tl cam tm er nt sel rec ch itv str wr tr].
  destruct itv as [id|], sc, cam as [c|], (cameraMedia env) as [cs|e];
    cbn; rewrite ?stops_app, ?stops_console; cbn; rewrite ?app_nil_r;
    repeat split.
Qed.

Lemma setupRecorder_fails (env : StartEnv) (displayStream : MediaStream)
  (micStream : option MediaStream) (a : App) (err : JsError) :
  someLive env displayStream a ->
  recorderCtorError env = Some err
  \/ (recorderCtorError env = None /\ recorderStartError env = Some err) ->
  setupRecorder env displayStream micStream a
  = catchStart (Some displayStream) err
      (let a1 := setStreamRef (Some (combinedOf env displayStream))
                   (emit (map Console
                            (warnings (snd (mergeAudioStreams (audioContext env)
                                              displayStream micStream)))) a) in
       match recorderCtorError env with
       | Some _ => a1
       | None => emit [NewMediaRecorder (combinedOf env displayStream)
                         (getSupportedMimeType env)] a1
       end).
Proof.
  intros Hlive Herr. unfold setupRecorder.
  pose proof (setupRecorder_active env displayStream micStream a Hlive) as Hact.
  destruct (mergeAudioStreams (audioContext env) displayStream micStream)
    as [combined graph] eqn:E.
  assert (combined = combinedOf env displayStream) as ->.
  { unfold mergeAudioStreams in E. now injection E as <- _. }
  cbn [snd] in *. rewrite Hact. cbn [negb].
  destruct Herr as [-> | (-> & ->)]; reflexivity.
Qed.

(** What the steps before the recorder leave behind when the save prompt is
    not cancelled. *)
Lemma arming_steps (env : StartEnv) (displayStream : MediaStream) (a : App) :
  (hasSaveFilePicker env = true ->
   forall e, saveTarget env = Throw e -> name e <> "AbortError") ->
  exists a1 micStream,
    setupFileHandle env displayStream a = Continue a1
    /\ (exists a2, acquireMic env a1 = (micStream, a2)
        /\ state a2 = state a
        /\ error a2 = error a
        /\ chunksRef a2 = chunksRef a
        /\ isSelecting a2 = isSelecting a
        /\ mediaRecorderRef a2 = mediaRecorderRef a
        /\ stops (trace a2) = stops (trace a)
        /\ writableStreamRef a2
           = (if hasSaveFilePicker env
              then match saveTarget env with
                   | Ok w => Some w
                   | Throw _ => writableStreamRef a
                   end
              else writableStreamRef a)
        /\ (enableMic (settings a) = false -> micStream = None)
        /\ (forall e, micMedia env = Throw e -> micStream = None)
        /\ translations a2 = translations a).
Proof.
  intro Hp. unfold setupFileHandle, acquireMic.
  destruct a as [st [sc em sa] tl cam tm er nt sel rec ch itv str wr tr].
  destruct (hasSaveFilePicker env).
  - destruct (saveTarget env) as [w|e] eqn:Es.
    + destruct em, (micMedia env) as [ms|me] eqn:Emm; cbn;
        rewrite ?Emm;
        do 2 eexists; (split; [reflexivity|]); eexists; (split; [reflexivity|]);
        cbn; rewrite ?stops_app; cbn; rewrite ?app_nil_r;
        repeat split; try discriminate; intros; congruence.
    + specialize (Hp eq_refl e eq_refl). apply String.eqb_neq in Hp. rewrite Hp.
      destruct em, (micMedia env) as [ms|me] eqn:Emm; cbn;
        rewrite ?Emm;
        do 2 eexists; (split; [reflexivity|]); eexists; (split; [reflexivity|]);
        cbn; rewrite ?stops_app; cbn; rewrite ?app_nil_r;
        repeat split; try discriminate; intros; congruence.
  - destruct em, (micMedia env) as [ms|me] eqn:Emm; cbn;
      rewrite ?Emm;
      do 2 eexists; (split; [reflexivity|]); eexists; (split; [reflexivity|]);
      cbn; rewrite ?stops_app; cbn; rewrite ?app_nil_r;
      repeat split; try discriminate; intros; congruence.
Qed.

(** The state [startRecording] works on once the screen was granted. *)
Lemma startRecording_granted (env : StartEnv) (a : App) (displayStream : MediaStream) :
  displayMedia env = Ok displayStream ->
  getVideoTracks displayStream <> [] ->
  exists a0,
    startRecording env a
    = match setupFileHandle env displayStream a0 with
      | Return r => r
      | Continue a1 =>
        let '(micStream, a2) := acquireMic env a1 in
        setupRecorder env displayStream micStream a2
      end
    /\ state a0 = state a /\ error a0 = None /\ chunksRef a0 = []
    /\ isSelecting a0 = false /\ mediaRecorderRef a0 = mediaRecorderRef a
    /\ writableStreamRef a0 = None /\ settings a0 = settings a
    /\ translations a0 = translations a
    /\ timer a0 = timer a /\ timerIntervalRef a0 = timerIntervalRef a
    /\ stops (trace a0) = stops (trace a).
Proof.
  intros Hd Hv. unfold startRecording. rewrite Hd.
  destruct (getVideoTracks displayStream) as [|v vs]; [contradiction|].
  eexists. split; [reflexivity|].
  destruct a; cbn. rewrite stops_app, app_nil_r. repeat split.
Qed.

(** X8. Once the screen is granted with a video track, the save prompt is not
    cancelled, some track of the combined stream is live and the recorder can
    be made and started, the session is in RECORDING whatever the microphone
    and the camera answer: the recorder holds the screen's video with the
    mixed audio in the preferred format, the clock is at zero and ticking,
    the buffer is empty, no error is shown and no track was stopped. *)
Theorem recording_starts (env : StartEnv) (a : App) (displayStream : MediaStream) :
  displayMedia env = Ok displayStream ->
  getVideoTracks displayStream <> [] ->
  notCancelled env ->
  someLive env displayStream a ->
  recorderCtorError env = None ->
  recorderStartError env = None ->
  let a' := startRecording env a in
  state a' = RECORDING
  /\ mediaRecorderRef a'
     = Some {| stream := combinedOf env displayStream;
               mimeType := getSupportedMimeType env |}
  /\ streamRef a' = Some (combinedOf env displayStream)
  /\ writableStreamRef a' = negotiatedTarget env
  /\ timer a' = 0%nat
  /\ timerIntervalRef a' = Some (intervalId env)
  /\ chunksRef a' = []
  /\ error a' = None
  /\ isSelecting a' = false
  /\ stops (trace a') = stops (trace a).
Proof.
  intros Hd Hv Hp (x & Hx & He & Hs) Hc Hst a'. subst a'.
  destruct (startRecording_granted env a displayStream Hd Hv)
    as (a0 & -> & S0 & E0 & C0 & I0 & R0 & W0 & _ & _ & _ & _ & T0).
  destruct (arming_steps env displayStream a0 Hp)
    as (a1 & mic & -> & a2 & -> & S2 & E2 & C2 & I2 & R2 & T2 & W2 & _).
  assert (Hlive : someLive env displayStream a2).
  { exists x. repeat split; try assumption.
    erewrite stopped_same; [exact Hs|]. now rewrite T2, T0. }
  destruct (setupRecorder_records env displayStream mic a2 Hlive Hc Hst)
    as (P1 & P2 & P3 & P4 & P5 & P6 & P7 & P8 & P9 & P10).
  repeat split; try assumption.
  - rewrite P9, W2, W0. unfold negotiatedTarget.
    destruct (hasSaveFilePicker env); [|reflexivity].
    now destruct (saveTarget env).
  - now rewrite P6, C2.
  - now rewrite P7, E2.
  - now rewrite P8, I2.
  - now rewrite P10, T2.
Qed.

Lemma recording_starts_witness :
  let env := Scenarios.micDeniedEnv in
  let a' := startRecording env Scenarios.idleApp in
  state a' = RECORDING
  /\ mediaRecorderRef a'
     = Some {| stream := [Scenarios.screenVideoTrack; Scenarios.mixedTrack];
               mimeType := "video/webm;codecs=vp9,opus" |}
  /\ streamRef a' = Some [Scenarios.screenVideoTrack; Scenarios.mixedTrack]
  /\ writableStreamRef a' = None
  /\ timer a' = 0%nat
  /\ timerIntervalRef a' = Some 7%nat
  /\ chunksRef a' = []
  /\ error a' = None
  /\ isSelecting a' = false
  /\ stops (trace a') = [].
Proof.
  apply (recording_starts Scenarios.micDeniedEnv Scenarios.idleApp Scenarios.screenWithAudio).
  - reflexivity.
  - discriminate.
  - intro H. discriminate H.
  - exists Scenarios.screenVideoTrack. repeat split. now left.
  - reflexivity.
  - reflexivity.
Defined.

Lemma catchStart_fields (displayStream : option MediaStream) (err : JsError) (b : App) :
  let b' := catchStart displayStream err b in
  state b' = state b
  /\ mediaRecorderRef b' = mediaRecorderRef b
  /\ stops (trace b')
     = stops (trace b) ++ match displayStream with Some s => getTracks s | None => [] end
  /\ isSelecting b' = false
  /\ chunksRef b' = chunksRef b
  /\ timer b' = timer b
  /\ timerIntervalRef b' = timerIntervalRef b
  /\ error b'
     = (if takenForCancel err then error b else Some (errorGeneric (translations b))).
Proof.
  unfold catchStart, takenForCancel, stopTracks, getTracks.
  destruct b as [st se tl cam tm er nt sel rec ch itv str wr tr].
  destruct (String.eqb (name err) "NotAllowedError"
            || String.eqb (name err) "PermissionDeniedError"
            || includes (message err) "Permission denied"
            || includes (message err) "user denied")%bool;
    destruct displayStream as [s|]; cbn;
    rewrite ?stops_app, ?stops_stopTracks; cbn; rewrite ?app_nil_r; repeat split.
Qed.

(** X9. When the recorder cannot be made or started, the catch block stops the
    tracks of the display stream and nothing else, leaves the state and the
    recorder ref as they were, and shows the generic error unless it takes
    the error for a cancellation. *)
Theorem recorder_failure_stops_display (env : StartEnv) (a : App)
  (displayStream : MediaStream) (err : JsError) :
  displayMedia env = Ok displayStream ->
  getVideoTracks displayStream <> [] ->
  notCancelled env ->
  someLive env displayStream a ->
  recorderCtorError env = Some err
  \/ (recorderCtorError env = None /\ recorderStartError env = Some err) ->
  let a' := startRecording env a in
  state a' = state a
  /\ mediaRecorderRef a' = mediaRecorderRef a
  /\ stops (trace a') = stops (trace a) ++ getTracks displayStream
  /\ isSelecting a' = false
  /\ chunksRef a' = []
  /\ error a'
     = (if takenForCancel err then None else Some (errorGeneric (translations a))).
Proof.
  intros Hd Hv Hp (x & Hx & He & Hs) Herr a'. subst a'.
  destruct (startRecording_granted env a displayStream Hd Hv)
    as (a0 & -> & S0 & E0 & C0 & I0 & R0 & W0 & _ & L0 & _ & _ & T0).
  destruct (arming_steps env displayStream a0 Hp)
    as (a1 & mic & -> & a2 & -> & S2 & E2 & C2 & I2 & R2 & T2 & W2 & _ & _ & L2).
  assert (Hlive : someLive env displayStream a2).
  { exists x. repeat split; try assumption.
    erewrite stopped_same; [exact Hs|]. now rewrite T2, T0. }
  rewrite (setupRecorder_fails env displayStream mic a2 err Hlive Herr).
  match goal with
  | |- context [catchStart ?d ?e ?b] =>
    destruct (catchStart_fields d e b) as (F1 & F2 & F3 & F4 & F5 & _ & _ & F8);
    assert (B : state b = state a2 /\ mediaRecorderRef b = mediaRecorderRef a2
                /\ stops (trace b) = stops (trace a2) /\ chunksRef b = chunksRef a2
                /\ error b = error a2 /\ translations b = translations a2)
  end.
  { destruct a2 as [st se tl cam tm er nt sel rec ch itv str wr tr].
    destruct (recorderCtorError env); cbn;
      rewrite ?stops_app, ?stops_console; cbn; rewrite ?app_nil_r; repeat split. }
  destruct B as (B1 & B2 & B3 & B4 & B5 & B6).
  rewrite F1, F2, F3, F4, F5, F8, B1, B2, B3, B4, B5, B6.
  rewrite S2, S0, R2, R0, T2, T0, C2, C0, E2, E0, L2, L0.
  repeat split.
Qed.

Lemma recorder_failure_stops_display_witness :
  let a' := startRecording Scenarios.noRecorderEnv Scenarios.idleApp in
  state a' = IDLE
  /\ mediaRecorderRef a' = None
  /\ stops (trace a') = [] ++ Scenarios.screenWithAudio
  /\ isSelecting a' = false
  /\ chunksRef a' = []
  /\ error a' = Some "Failed to start recording".
Proof.
  apply (recorder_failure_stops_display Scenarios.noRecorderEnv Scenarios.idleApp
           Scenarios.screenWithAudio Scenarios.notSupported).
  - reflexivity.
  - discriminate.
  - intro H. discriminate H.
  - exists Scenarios.screenVideoTrack. repeat split. now left.
  - left. reflexivity.
Defined.

(** X10. When the screen is refused, nothing was acquired and nothing is stopped:
    the state and the recorder ref stay as they were, and the error is shown
    only if the refusal is not taken for a cancellation by the user. *)
Theorem display_refused (env : StartEnv) (a : App) (err : JsError) :
  displayMedia env = Throw err ->
  let a' := startRecording env a in
  state a' = state a
  /\ mediaRecorderRef a' = mediaRecorderRef a
  /\ streamRef a' = streamRef a
  /\ stops (trace a') = stops (trace a)
  /\ isSelecting a' = false
  /\ chunksRef a' = []
  /\ writableStreamRef a' = None
  /\ error a'
     = (if takenForCancel err then None else Some (errorGeneric (translations a))).
Proof.
  intros Hd a'. subst a'. unfold startRecording. rewrite Hd.
  unfold catchStart. fold (takenForCancel err).
  destruct a as [st se tl cam tm er nt sel rec ch itv str wr tr].
  destruct (takenForCancel err); cbn; rewrite !stops_app; cbn;
    rewrite ?app_nil_r; repeat split.
Qed.

Lemma display_refused_witness :
  let a' := startRecording Scenarios.refusedEnv Scenarios.idleApp in
  state a' = IDLE
  /\ mediaRecorderRef a' = None
  /\ streamRef a' = None
  /\ stops (trace a') = []
  /\ isSelecting a' = false
  /\ chunksRef a' = []
  /\ writableStreamRef a' = None
  /\ error a' = None.
Proof.
  apply (display_refused Scenarios.refusedEnv Scenarios.idleApp Scenarios.denied).
  reflexivity.
Defined.

(** *** Every way out of [startRecording] *)

Lemma sameSession_refl (a : App) : sameSession a a.
Proof. now repeat split. Qed.

Lemma sameSession_trans (a b c : App) :
  sameSession a b -> sameSession b c -> sameSession a c.
Proof.
  unfold sameSession. intros (A1 & A2 & A3 & A4 & A5) (B1 & B2 & B3 & B4 & B5).
  repeat split; congruence.
Qed.

Lemma sameSession_catchStart (d : option MediaStream) (err : JsError) (b : App) :
  sameSession b (catchStart d err b) /\ isSelecting (catchStart d err b) = false.
Proof.
  destruct (catchStart_fields d err b) as (F1 & F2 & _ & F4 & F5 & F6 & F7 & _).
  now repeat split.
Qed.

Lemma arming_outcome (env : StartEnv) (displayStream : MediaStream) (a : App) :
  match setupFileHandle env displayStream a with
  | Return r => sameSession a r /\ isSelecting r = isSelecting a
  | Continue a1 =>
    sameSession a (snd (acquireMic env a1))
    /\ isSelecting (snd (acquireMic env a1)) = isSelecting a
  end.
Proof.
  unfold setupFileHandle, acquireMic, sameSession.
  destruct a as [st [sc em sa] tl cam tm er nt sel rec ch itv str wr tr].
  destruct (hasSaveFilePicker env); [destruct (saveTarget env) as [w|e]|];
    [ | destruct (String.eqb (name e) "AbortError") | ];
    try (destruct em, (micMedia env)); cbn; repeat split.
Qed.

Lemma setupRecorder_outcome (env : StartEnv) (displayStream : MediaStream)
  (micStream : option MediaStream) (a : App) :
  let a' := setupRecorder env displayStream micStream a in
  chunksRef a' = chunksRef a
  /\ ((state a' = RECORDING /\ mediaRecorderRef a' <> None
       /\ timerIntervalRef a' <> None /\ isSelecting a' = isSelecting a)
      \/ (sameSession a a'
          /\ (isSelecting a' = false \/ isSelecting a' = isSelecting a))).
Proof.
  unfold setupRecorder.
  destruct (mergeAudioStreams (audioContext env) displayStream micStream)
    as [combined graph].
  match goal with |- context [active ?e ?x ?s] => destruct (active e x s) end;
    cbn [negb].
  - assert (B : forall es,
               sameSession a (emit es (setStreamRef (Some combined)
                                         (emit (map Console (warnings graph)) a)))
               /\ isSelecting (emit es (setStreamRef (Some combined)
                                          (emit (map Console (warnings graph)) a)))
                  = isSelecting a).
    { intro es. destruct a; cbn. now repeat split. }
    destruct (recorderCtorError env) as [err|].
    + match goal with
      | |- context [catchStart ?d ?e ?b] =>
        destruct (sameSession_catchStart d e b) as (K & I);
        destruct (catchStart_fields d e b) as (_ & _ & _ & _ & F5 & _)
      end.
      destruct (B []) as (B1 & _).
      assert (E : forall x : App, emit [] x = x)
        by (intros []; cbn; now rewrite app_nil_r).
      rewrite E in B1.
      split; [rewrite F5; apply B1|]. right. split; [|now left].
      eapply sameSession_trans; eassumption.
    + destruct (recorderStartError env) as [err|].
      * match goal with
        | |- context [catchStart ?d ?e ?b] =>
          destruct (sameSession_catchStart d e b) as (K & I);
          destruct (catchStart_fields d e b) as (_ & _ & _ & _ & F5 & _)
        end.
        destruct (B [NewMediaRecorder combined (getSupportedMimeType env)]) as (B1 & _).
        split; [rewrite F5; apply B1|]. right. split; [|now left].
        eapply sameSession_trans; eassumption.
      * unfold startTimer, initializeCamera.
        destruct a as [st [sc em sa] tl cam tm er nt sel rec ch itv str wr tr].
        destruct itv as [id|], sc, cam as [c|], (cameraMedia env) as [cs|e];
          cbn; (split; [reflexivity|]); left; repeat split; discriminate.
  - destruct a; cbn. split; [reflexivity|]. right.
    split; [now repeat split | now right].
Qed.

(** X11. However [startRecording] ends, the chunk buffer is empty and the
    selection guide is down; and either the session is in RECORDING with a
    recorder and a running clock, or its state, recorder ref and clock are
    exactly what they were. *)
Theorem start_records_or_leaves_session (env : StartEnv) (a : App) :
  let a' := startRecording env a in
  chunksRef a' = []
  /\ isSelecting a' = false
  /\ ((state a' = RECORDING /\ mediaRecorderRef a' <> None
       /\ timerIntervalRef a' <> None)
      \/ (state a' = state a /\ mediaRecorderRef a' = mediaRecorderRef a
          /\ timer a' = timer a /\ timerIntervalRef a' = timerIntervalRef a)).
Proof.
  intro a'. subst a'.
  destruct (displayMedia env) as [displayStream|err] eqn:Hd.
  - destruct (getVideoTracks displayStream) as [|v vs] eqn:Hv.
    + unfold startRecording. rewrite Hd, Hv.
      match goal with
      | |- context [catchStart ?d ?e ?b] =>
        destruct (catchStart_fields d e b) as (F1 & F2 & _ & F4 & F5 & F6 & F7 & _);
        assert (B : state b = state a /\ mediaRecorderRef b = mediaRecorderRef a
                    /\ timer b = timer a /\ timerIntervalRef b = timerIntervalRef a
                    /\ chunksRef b = [])
          by (destruct a; cbn; now repeat split)
      end.
      destruct B as (B1 & B2 & B3 & B4 & B5).
      rewrite F5, F4, F1, F2, F6, F7. split; [assumption|]. split; [reflexivity|].
      right. now repeat split.
    + assert (Hne : getVideoTracks displayStream <> []) by (rewrite Hv; discriminate).
      destruct (startRecording_granted env a displayStream Hd Hne)
        as (a0 & -> & S0 & E0 & C0 & I0 & R0 & W0 & _ & _ & M0 & N0 & _).
      pose proof (arming_outcome env displayStream a0) as Harm.
      destruct (setupFileHandle env displayStream a0) as [r|a1].
      * destruct Harm as ((K1 & K2 & K3 & K4 & K5) & KI).
        split; [congruence|]. split; [congruence|]. right.
        repeat split; congruence.
      * destruct (acquireMic env a1) as [mic a2]. cbn [snd] in Harm.
        destruct Harm as ((K1 & K2 & K3 & K4 & K5) & KI).
        destruct (setupRecorder_outcome env displayStream mic a2) as (Q1 & Q2).
        split; [congruence|].
        destruct Q2 as [(P1 & P2 & P3 & P4) | ((L1 & L2 & L3 & L4 & L5) & LI)].
        -- split; [congruence|]. left. now repeat split.
        -- split; [destruct LI; congruence|]. right. repeat split; congruence.
  - unfold startRecording. rewrite Hd.
    match goal with
    | |- context [catchStart ?d ?e ?b] =>
      destruct (catchStart_fields d e b) as (F1 & F2 & _ & F4 & F5 & F6 & F7 & _);
      assert (B : state b = state a /\ mediaRecorderRef b = mediaRecorderRef a
                  /\ timer b = timer a /\ timerIntervalRef b = timerIntervalRef a
                  /\ chunksRef b = [])
        by (destruct a; cbn; now repeat split)
    end.
    destruct B as (B1 & B2 & B3 & B4 & B5).
    rewrite F5, F4, F1, F2, F6, F7. split; [assumption|]. split; [reflexivity|].
    right. now repeat split.
Qed.

(** *** The end of a session *)

Lemma stops_stopAllStreams (camera : option MediaStream) (a : App) :
  stops (trace (stopAllStreams camera a))
  = stops (trace a) ++ tracksOf (streamRef a) ++ tracksOf camera.
Proof.
  unfold stopAllStreams, stopTracks, tracksOf, getTracks.
  destruct a as [st se tl cam tm er nt sel rec ch itv str wr tr].
  destruct str as [s|], camera as [c|], itv as [id|]; cbn;
    rewrite ?stops_app, ?stops_stopTracks; cbn; rewrite ?app_nil_r, <- ?app_assoc;
    reflexivity.
Qed.

Lemma stopAllStreams_fields (camera : option MediaStream) (a : App) :
  let a' := stopAllStreams camera a in
  state a' = state a /\ timer a' = timer a /\ chunksRef a' = chunksRef a
  /\ mediaRecorderRef a' = mediaRecorderRef a /\ streamRef a' = streamRef a
  /\ timerIntervalRef a' = timerIntervalRef a /\ error a' = error a
  /\ writableStreamRef a' = writableStreamRef a /\ notification a' = notification a.
Proof.
  unfold stopAllStreams, stopTracks.
  destruct a as [st se tl cam tm er nt sel rec ch itv str wr tr].
  destruct str as [s|], camera as [c|], itv as [id|]; cbn; repeat split.
Qed.

(** X12. The recorder's stop handler ends the session: the state is IDLE, the
    clock back at zero, the selection guide down.  It stops the tracks of the
    stream the recorder was given and of the camera stream its closure holds,
    and no other track; the recorder ref and the chunk buffer are left as
    they are. *)
Theorem onstop_ends_session (cl : Closure) (closeRejects : bool) (a : App) :
  let a' := onstop cl closeRejects a in
  state a' = IDLE
  /\ timer a' = 0%nat
  /\ isSelecting a' = false
  /\ stops (trace a')
     = stops (trace a) ++ tracksOf (streamRef a) ++ tracksOf (closedCamera cl)
  /\ (forall x, In x (tracksOf (streamRef a)) -> stopped (trace a') x = true)
  /\ mediaRecorderRef a' = mediaRecorderRef a
  /\ chunksRef a' = chunksRef a.
Proof.
  intro a'.
  assert (Hst : stops (trace a')
                = stops (trace a) ++ tracksOf (streamRef a) ++ tracksOf (closedCamera cl)).
  { subst a'. unfold onstop.
    match goal with
    | |- context [stopAllStreams ?c ?x] =>
      pose proof (stops_stopAllStreams c x) as H;
      assert (T : forall u v, trace (setIsSelecting u (setTimer v (stopAllStreams c x)))
                              = trace (stopAllStreams c x))
        by (intros; now destruct (stopAllStreams c x));
      rewrite T, H; clear T H
    end.
    destruct a as [st se tl cam tm er nt sel rec ch itv str wr tr].
    destruct wr as [w|]; [destruct closeRejects|]; destruct ch as [|b ch]; cbn;
      rewrite ?stops_app; cbn; rewrite ?app_nil_r; reflexivity. }
  assert (Hf : state a' = IDLE /\ timer a' = 0%nat /\ isSelecting a' = false
               /\ mediaRecorderRef a' = mediaRecorderRef a
               /\ chunksRef a' = chunksRef a).
  { subst a'. unfold onstop.
    match goal with
    | |- context [stopAllStreams ?c ?x] =>
      destruct (stopAllStreams_fields c x) as (F1 & F2 & F3 & F4 & _);
      destruct (stopAllStreams c x) eqn:E
    end.
    cbn in *. subst.
    destruct a as [st se tl cam tm er nt sel rec ch itv str wr tr].
    destruct wr as [w|]; [destruct closeRejects|]; destruct ch as [|b ch]; cbn;
      repeat split. }
  destruct Hf as (F1 & F2 & F3 & F4 & F5).
  repeat split; try assumption.
  intros x Hx. apply stopped_of_stops. rewrite Hst.
  apply in_or_app. right. apply in_or_app. now left.
Qed.

Lemma deliver_fields (evs : list BlobEvent) :
  forall a : App,
    notification (deliver evs a) = notification a
    /\ state (deliver evs a) = state a
    /\ streamRef (deliver evs a) = streamRef a.
Proof.
  induction evs as [|e evs IH]; intro a; [now repeat split|].
  change (deliver (e :: evs) a) with (deliver evs (ondataavailable e a)).
  destruct (IH (ondataavailable e a)) as (-> & -> & ->).
  unfold ondataavailable.
  destruct a as [st se tl cam tm er nt sel rec ch itv str wr tr].
  destruct (0 <? size (data e))%nat, wr, (writeRejects e); cbn; repeat split.
Qed.

Lemma onstop_rejected_fields (cl : Closure) (a : App)
  (w : FileSystemWritableFileStream) :
  writableStreamRef a = Some w ->
  writableStreamRef (onstop cl true a) = Some w
  /\ notification (onstop cl true a) = notification a.
Proof.
  unfold onstop, stopAllStreams, stopTracks.
  destruct a as [st se tl cam tm er nt sel rec ch itv str wr tr]. cbn.
  intros ->.
  destruct ch as [|b ch], str as [s|], (closedCamera cl) as [c|], itv as [id|];
    cbn; split; reflexivity.
Qed.

(** X13. When closing the disk target fails, the chunks whose write had been
    refused are handed out as one backup download, in arrival order; nothing
    is handed out if there is none, the target stays in the ref and no
    success is announced.  When closing succeeds, those buffered chunks are
    handed out nowhere. *)
Theorem backup_only_on_failed_close (cl : Closure) (evs : list BlobEvent)
  (a : App) (w : FileSystemWritableFileStream) :
  chunksRef a = [] ->
  quiet (trace a) = true ->
  writableStreamRef a = Some w ->
  artifacts (trace (session cl evs true a))
  = match keptInMemory evs with
    | [] => []
    | _ :: _ => [Downloaded true (newBlob (keptInMemory evs) (selectedMimeType cl))]
    end
  /\ writableStreamRef (session cl evs true a) = Some w
  /\ notification (session cl evs true a) = notification a
  /\ (forall k b, ~ In (Downloaded k b) (artifacts (trace (session cl evs false a)))).
Proof.
  intros Hch Hq Hw.
  destruct (RecorderFacts.quiet_inert _ Hq) as (Hw0 & _ & Ha0).
  destruct (RecorderFacts.deliver_disk evs a w Hw) as (H1 & H2 & es & H3 & _ & H5 & H6).
  destruct (deliver_fields evs a) as (N1 & _ & _).
  assert (Hart : forall cr,
             artifacts (trace (session cl evs cr a))
             = if cr
               then match keptInMemory evs with
                    | [] => []
                    | _ :: _ => [Downloaded true (newBlob (keptInMemory evs) (selectedMimeType cl))]
                    end
               else [DiskFile (keptOnDisk evs)]).
  { intro cr. unfold session. rewrite RecorderFacts.artifacts_onstop.
    - rewrite H1, H2, H3, Hch, RecorderFacts.written_app, Hw0, H5. reflexivity.
    - intro d. now rewrite H3, flat_map_app, Ha0, H6. }
  destruct (onstop_rejected_fields cl (deliver evs a) w H1) as (O1 & O2).
  split; [apply (Hart true)|]. split; [exact O1|]. split.
  - unfold session. now rewrite O2.
  - intros k b Hin. rewrite (Hart false) in Hin. destruct Hin as [Hin | []].
    discriminate.
Qed.

Lemma backup_only_on_failed_close_witness :
  let evs := [Scenarios.failedWrite Scenarios.chunkA; Scenarios.goodWrite Scenarios.chunkB] in
  artifacts (trace (session Scenarios.closure evs true Scenarios.recordingToDisk))
  = [Downloaded true (newBlob [Scenarios.chunkA] Scenarios.webm)]
  /\ writableStreamRef (session Scenarios.closure evs true Scenarios.recordingToDisk)
     = Some Writable
  /\ notification (session Scenarios.closure evs true Scenarios.recordingToDisk) = None
  /\ (forall k b,
        ~ In (Downloaded k b)
            (artifacts (trace (session Scenarios.closure evs false
                                 Scenarios.recordingToDisk)))).
Proof.
  apply (backup_only_on_failed_close Scenarios.closure
           [Scenarios.failedWrite Scenarios.chunkA; Scenarios.goodWrite Scenarios.chunkB]
           Scenarios.recordingToDisk Writable); reflexivity.
Defined.

End RecorderMore.

(** ** Pause, resume, stop and the camera switch *)
Module ControlsFacts.

Import Media AudioMix Types Recorder Controls.
Local Open Scope string_scope.
Local Open Scope list_scope.

Lemma command_keeps_step (env : StartEnv) (c : Command) (l : Live) :
  inStep l -> ticking (app l) ->
  exists l',
    command env c l = Ok l'
    /\ inStep l' /\ ticking (app l')
    /\ stops (trace (app l')) = stops (trace (app l))
    /\ chunksRef (app l') = chunksRef (app l)
    /\ timer (app l') = timer (app l)
    /\ streamRef (app l') = streamRef (app l)
    /\ (state (app l') = PAUSED <-> recorderState l' = paused).
Proof.
  unfold inStep, ticking.
  destruct l as [a rs cs].
  destruct a as [st se tl cam tm er nt sel rec ch itv str wr tr]. cbn.
  intros (Hrec & Hst) Htick.
  destruct rec as [r|]; [|contradiction].
  destruct st; try contradiction; subst rs;
    destruct c; unfold command, pauseRecording, resumeRecording, startTimer; cbn;
    try (destruct itv as [id|]; try contradiction; try discriminate);
    eexists; (split; [reflexivity|]); cbn;
    rewrite ?RecorderMore.stops_app; cbn; rewrite ?app_nil_r;
    repeat split; try discriminate; try congruence; auto.
Qed.

(** X14. While the React state and the recorder agree, no sequence of pause and
    resume commands throws, and after it they still agree and the clock runs
    exactly in RECORDING; no track is stopped and the chunk buffer, the timer
    value and the recorded stream are untouched. *)
Theorem pause_resume_keep_step (env : StartEnv) (cs : list Command) (l : Live) :
  inStep l -> ticking (app l) ->
  exists l',
    commands env cs l = Ok l'
    /\ inStep l' /\ ticking (app l')
    /\ stops (trace (app l')) = stops (trace (app l))
    /\ chunksRef (app l') = chunksRef (app l)
    /\ timer (app l') = timer (app l)
    /\ streamRef (app l') = streamRef (app l)
    /\ (state (app l') = PAUSED <-> recorderState l' = paused).
Proof.
  revert l. induction cs as [|c cs IH]; intros l Hs Ht.
  - exists l. split; [reflexivity|]. split; [assumption|]. split; [assumption|].
    do 4 (split; [reflexivity|]).
    destruct Hs as (_ & Hs).
    destruct (state (app l)); try contradiction; split; intro; congruence.
  - destruct (command_keeps_step env c l Hs Ht)
      as (l1 & E1 & S1 & T1 & A1 & B1 & C1 & D1 & _).
    destruct (IH l1 S1 T1) as (l2 & E2 & S2 & T2 & A2 & B2 & C2 & D2 & P2).
    exists l2. cbn [commands]. rewrite E1.
    split; [assumption|]. split; [assumption|]. split; [assumption|].
    repeat split; try congruence; apply P2.
Qed.

Lemma pause_resume_keep_step_witness :
  exists l',
    commands Scenarios.memoryEnv [Pause; Pause; Resume; Pause] Scenarios.liveSession = Ok l'
    /\ inStep l' /\ ticking (app l')
    /\ stops (trace (app l')) = stops (trace (app Scenarios.liveSession))
    /\ chunksRef (app l') = chunksRef (app Scenarios.liveSession)
    /\ timer (app l') = timer (app Scenarios.liveSession)
    /\ streamRef (app l') = streamRef (app Scenarios.liveSession)
    /\ (state (app l') = PAUSED <-> recorderState l' = paused).
Proof.
  apply (pause_resume_keep_step Scenarios.memoryEnv [Pause; Pause; Resume; Pause]
           Scenarios.liveSession).
  - split; [discriminate | reflexivity].
  - discriminate.
Defined.

(** Out of step, pausing throws: with the React state still RECORDING and
    the recorder already inactive, [pause()] raises InvalidStateError and
    [pauseRecording] does not catch it. *)
Lemma pause_inactive_throws (l : Live) :
  mediaRecorderRef (app l) <> None -> state (app l) = RECORDING ->
  recorderState l = inactive ->
  pauseRecording l = Throw invalidState.
Proof.
  intros Hr Hs Hi. unfold pauseRecording. rewrite Hs, Hi.
  now destruct (mediaRecorderRef (app l)).
Qed.



Lemma stopRecordingFrom_idle (seen : RecorderState) (camera : option MediaStream)
  (l : Live) :
  hasRecorder (app l) && match seen with RECORDING | PAUSED => true | _ => false end
  = false ->
  let l' := stopRecordingFrom seen camera l in
  calls l' = calls l
  /\ recorderState l' = recorderState l
  /\ state (app l') = IDLE
  /\ error (app l') = error (app l)
  /\ stops (trace (app l'))
     = stops (trace (app l)) ++ tracksOf (streamRef (app l)) ++ tracksOf camera.
Proof.
  intros H l'. subst l'. unfold stopRecordingFrom. rewrite H. cbn [app calls recorderState].
  destruct (RecorderMore.stopAllStreams_fields camera (app l))
    as (_ & _ & _ & _ & _ & _ & F7 & _).
  rewrite <- F7, <- RecorderMore.stops_stopAllStreams.
  destruct (stopAllStreams camera (app l)); now repeat split.
Qed.

(** X16. A stop that comes from a closure holding a state other than RECORDING or
    PAUSED (the handlers set up by [startRecording], which runs from IDLE),
    or when no recorder is stored, never calls [stop()] on the recorder: it
    stops the tracks of the recorded stream and of the camera the closure
    holds and sets the state to IDLE at once.  The recorder's error handler
    shows its error first. *)
Theorem stale_stop_releases_streams (seen : RecorderState)
  (camera : option MediaStream) (l : Live) :
  hasRecorder (app l) && match seen with RECORDING | PAUSED => true | _ => false end
  = false ->
  let l1 := stopRecordingFrom seen camera l in
  let l2 := onerror seen camera l in
  calls l1 = calls l /\ calls l2 = calls l
  /\ state (app l1) = IDLE /\ state (app l2) = IDLE
  /\ stops (trace (app l1))
     = stops (trace (app l)) ++ tracksOf (streamRef (app l)) ++ tracksOf camera
  /\ stops (trace (app l2)) = stops (trace (app l1))
  /\ error (app l1) = error (app l)
  /\ error (app l2) = Some "Recording error occurred.".
Proof.
  intros H l1 l2.
  destruct (stopRecordingFrom_idle seen camera l H) as (A1 & _ & A3 & A4 & A5).
  subst l2. unfold onerror.
  match goal with
  | |- context [stopRecordingFrom seen camera ?x] =>
    assert (Hx : hasRecorder (app x)
                 && match seen with RECORDING | PAUSED => true | _ => false end = false)
      by (destruct l as [[] ? ?]; exact H);
    destruct (stopRecordingFrom_idle seen camera x Hx) as (B1 & _ & B3 & B4 & B5);
    assert (Hy : stops (trace (app x)) = stops (trace (app l))
                 /\ streamRef (app x) = streamRef (app l)
                 /\ error (app x) = Some "Recording error occurred."
                 /\ calls x = calls l)
      by (destruct l as [[] ? ?]; cbn; rewrite RecorderMore.stops_app; cbn;
          rewrite app_nil_r; now repeat split)
  end.
  destruct Hy as (Y1 & Y2 & Y3 & Y4).
  subst l1. repeat split; try assumption; try congruence.
Qed.

Lemma stale_stop_releases_streams_witness :
  let l1 := stopRecordingFrom IDLE None Scenarios.liveSession in
  let l2 := onerror IDLE None Scenarios.liveSession in
  calls l1 = [] /\ calls l2 = []
  /\ state (app l1) = IDLE /\ state (app l2) = IDLE
  /\ stops (trace (app l1))
     = [] ++ [Scenarios.screenVideoTrack; Scenarios.mixedTrack] ++ []
  /\ stops (trace (app l2)) = stops (trace (app l1))
  /\ error (app l1) = None
  /\ error (app l2) = Some "Recording error occurred.".
Proof.
  apply (stale_stop_releases_streams IDLE None Scenarios.liveSession). reflexivity.
Defined.

(** X17. The camera switch always flips [showCamera], also when the camera is
    refused on the way on.  Switching off stops every track of the camera
    stream and forgets it; switching on stops nothing and stores the stream
    only if the camera is granted. *)
Theorem toggleCamera_flips (env : StartEnv) (a : App) :
  let a' := toggleCamera env a in
  showCamera (settings a') = negb (showCamera (settings a))
  /\ enableMic (settings a') = enableMic (settings a)
  /\ enableSystemAudio (settings a') = enableSystemAudio (settings a)
  /\ state a' = state a
  /\ cameraStream a'
     = (if showCamera (settings a) then None
        else match cameraMedia env with
             | Ok s => Some s
             | Throw _ => cameraStream a
             end)
  /\ stops (trace a')
     = stops (trace a)
       ++ (if showCamera (settings a) then tracksOf (cameraStream a) else []).
Proof.
  unfold toggleCamera, initializeCamera, stopTracks, tracksOf, getTracks.
  destruct a as [st [sc em sa] tl cam tm er nt sel rec ch itv str wr tr].
  destruct sc; [destruct cam as [c|] | destruct (cameraMedia env) as [s|e]]; cbn;
    rewrite ?RecorderMore.stops_app, ?RecorderMore.stops_stopTracks; cbn;
    rewrite ?app_nil_r; repeat split.
Qed.

End ControlsFacts.

(** ** The trim editor, further *)
Module EditorFacts.

Import JSNum JSNumFacts Preview Editor.
Local Open Scope Q_scope.

(** *** The window under drags *)




(** X26. On a track of width zero with the pointer on its left edge the clamped
    fraction is NaN, and the dragged end of the window becomes NaN: nothing
    in [update] guards the division. *)
Theorem drag_on_collapsed_track (type : Handle) (x : Q) (p : Preview) :
  let q := update type (Fin x) {| left := Fin x; width := Fin 0 |} p in
  match type with
  | startHandle => trimStart q = NaN
  | endHandle => trimEnd q = NaN
  end.
Proof.
  unfold update, pointerTime. cbn [left width jsub jneg jadd].
  assert (Fin (x + - x) / Fin 0 = NaN)%js as ->.
  { unfold jdiv. change (Qeq_bool 0 0) with true. cbv iota. unfold signed.
    assert (Qeq_bool (x + - x) 0 = true) as -> by (apply Qeq_bool_iff; ring).
    reflexivity. }
  cbn [jmax jmin jmul].
  destruct p as [md vr pl ed ts te du pr ct jb up].
  destruct type, vr; cbn; now destruct du.
Qed.

(** *** Leaving the editor *)

Lemma drag_fields (type : Handle) (moves : list Move) :
  forall p : Preview,
    duration (drag type moves p) = duration p
    /\ (videoRef p <> None -> videoRef (drag type moves p) <> None)
    /\ media (drag type moves p) = media p
    /\ updates (drag type moves p) = updates p.
Proof.
  induction moves as [|m moves IH]; intro p; [now repeat split|].
  change (drag type (m :: moves) p)
    with (drag type moves (update type (clientX m) (rect m) p)).
  destruct (IH (update type (clientX m) (rect m) p)) as (A & B & C & D).
  rewrite A, C, D.
  assert (E : duration (update type (clientX m) (rect m) p) = duration p
              /\ (videoRef p <> None ->
                  videoRef (update type (clientX m) (rect m) p) <> None)
              /\ media (update type (clientX m) (rect m) p) = media p
              /\ updates (update type (clientX m) (rect m) p) = updates p).
  { unfold update, moveHandle, seekVideo.
    destruct p as [md vr pl ed ts te du pr ct jb up].
    destruct type, vr; cbn; repeat split; try discriminate; auto. }
  destruct E as (E1 & E2 & E3 & E4). repeat split; auto.
Qed.

(** X19. Cancelling the edit after any drags puts the window back on the full
    range, from 0 to the duration, and leaves edit mode. *)
Theorem cancelEdit_restores_full_range (type : Handle) (moves : list Move)
  (p : Preview) :
  videoRef p <> None ->
  let q := cancelEdit (drag type moves p) in
  trimStart q = Fin 0
  /\ trimEnd q = duration p
  /\ duration q = duration p
  /\ isEditing q = false
  /\ media q = media p.
Proof.
  intros Hv q. subst q.
  destruct (drag_fields type moves p) as (A & B & C & _).
  specialize (B Hv). unfold cancelEdit.
  destruct (drag type moves p) as [md vr pl ed ts te du pr ct jb up].
  cbn in *. destruct vr; [|contradiction]. cbn. subst. now repeat split.
Qed.

Lemma cancelEdit_restores_full_range_witness :
  let q := cancelEdit (drag endHandle Scenarios.sweep Scenarios.editing) in
  trimStart q = Fin 0
  /\ trimEnd q = Fin (10000 / 1000)
  /\ duration q = Fin (10000 / 1000)
  /\ isEditing q = false
  /\ media q = Scenarios.tenSeconds.
Proof.
  apply (cancelEdit_restores_full_range endHandle Scenarios.sweep Scenarios.editing).
  discriminate.
Defined.

(** X20. Whatever the video element reports as its duration, once the metadata
    are loaded for a recording of finite length the editor holds a finite
    duration (the recorded one, in seconds, when the element's is infinite,
    NaN or zero) and its window is the full range. *)
Theorem metadata_gives_finite_duration (p : Preview) (v : Video.HTMLVideoElement) :
  videoRef p = Some v ->
  isFinite (Types.duration (media p)) = true ->
  let q := handleLoadedMetadata p in
  isFinite (duration q) = true
  /\ trimStart q = Fin 0
  /\ trimEnd q = duration q
  /\ duration q
     = (if isFinite (Video.duration v) && negb (isZero (Video.duration v))
        then Video.duration v
        else (Types.duration (media p) / Fin 1000)%js).
Proof.
  intros Hv Hf q. subst q. unfold handleLoadedMetadata. rewrite Hv.
  destruct p as [md vr pl ed ts te du pr ct jb up]. cbn in Hf |- *.
  destruct (Video.duration v) as [x| | |]; cbn;
    try (destruct (Qeq_bool x 0)); cbn;
    destruct (Types.duration md); try discriminate; now repeat split.
Qed.

Lemma metadata_gives_finite_duration_witness :
  let q := handleLoadedMetadata Scenarios.mounted in
  isFinite (duration q) = true
  /\ trimStart q = Fin 0
  /\ trimEnd q = duration q
  /\ duration q = (Fin 10000 / Fin 1000)%js.
Proof.
  apply (metadata_gives_finite_duration Scenarios.mounted
           {| Video.currentTime := Fin 0; Video.duration := PInf; Video.paused := true |});
    reflexivity.
Defined.

(** *** Runs of a trim *)

Lemma step_idle (q : Preview) (ev : Event) :
  job q = None ->
  job (step q ev) = None
  /\ updates (step q ev) = updates q
  /\ isProcessing (step q ev) = isProcessing q.
Proof.
  destruct q as [md vr pl ed ts te du pr ct jb up]. cbn. intros ->.
  destruct ev as [time| | |b|u n]; cbn;
    unfold handleTimeUpdate, stopHandler, ondataavailable, onstop, seekVideo, pauseVideo;
    cbn;
    repeat match goal with
           | |- context [match ?x with _ => _ end] => destruct x; cbn
           end; now repeat split.
Qed.

Lemma run_idle (evs : list Event) :
  forall q : Preview,
    job q = None ->
    job (run evs q) = None
    /\ updates (run evs q) = updates q
    /\ isProcessing (run evs q) = isProcessing q.
Proof.
  induction evs as [|ev evs IH]; intros q Hq; [now repeat split|].
  change (run (ev :: evs) q) with (run evs (step q ev)).
  destruct (step_idle q ev Hq) as (A & B & C).
  destruct (IH _ A) as (A' & B' & C'). repeat split; congruence.
Qed.

(** X21. When the seek never completes, or capturing the stream or making the
    recorder throws, the trim hands out no media whatever happens next, and
    the media of the component is untouched.  After a throw the processing
    flag is cleared; when the seek never completes it stays set for good. *)
Theorem failed_trim_hands_out_nothing (seeked : bool)
  (captureError : option Media.JsError) (evs : list Event) (p : Preview) :
  job p = None ->
  videoRef p <> None ->
  seeked = false \/ captureError <> None ->
  let q := run evs (saveTrim seeked captureError p) in
  updates q = updates p
  /\ media q = media p
  /\ isProcessing q = negb seeked
  /\ job q = None.
Proof.
  intros Hj Hv Hfail q. subst q.
  assert (H : job (saveTrim seeked captureError p) = None
              /\ updates (saveTrim seeked captureError p) = updates p
              /\ isProcessing (saveTrim seeked captureError p) = negb seeked).
  { unfold saveTrim, seekVideo.
    destruct p as [md vr pl ed ts te du pr ct jb up]. cbn in Hj, Hv |- *. subst jb.
    destruct vr as [v|]; [|contradiction].
    destruct seeked; cbn; [|now repeat split].
    destruct captureError; cbn; [now repeat split|].
    destruct Hfail as [? | ?]; [discriminate | contradiction]. }
  destruct H as (A & B & C).
  destruct (run_idle evs _ A) as (A' & B' & C').
  rewrite PreviewFacts.run_media.
  repeat split; try congruence.
  unfold saveTrim, seekVideo.
  destruct p as [md vr pl ed ts te du pr ct jb up].
  destruct vr, seeked, captureError; reflexivity.
Qed.

Lemma failed_trim_hands_out_nothing_witness :
  let q := run Scenarios.fullTrim (saveTrim false None Scenarios.editing) in
  updates q = []
  /\ media q = Scenarios.tenSeconds
  /\ isProcessing q = true
  /\ job q = None.
Proof.
  apply (failed_trim_hands_out_nothing false None Scenarios.fullTrim Scenarios.editing).
  - reflexivity.
  - discriminate.
  - now left.
Defined.




(** *** The two time-update handlers *)

Lemma jge_below (s e : Q) : s < e -> jge (Fin s) (Fin e) = false.
Proof.
  intro H. cbn. destruct (Qle_bool e s) eqn:E; [|reflexivity].
  apply Qle_bool_iff in E. lra.
Qed.

Lemma jge_above (t e : Q) : e <= t -> jge (Fin t) (Fin e) = true.
Proof. intro H. cbn. now apply Qle_bool_iff. Qed.

Lemma stalled_step (s e : Q) (q : Preview) (ev : Event) :
  s < e -> isEditing q = true -> stalled s e q -> noPlayback ev ->
  stalled s e (step q ev) /\ isEditing (step q ev) = true
  /\ updates (step q ev) = updates q.
Proof.
  intros Hlt Hed (j & v & Hj & Hl & He & Hv & Hc & Hs & Hte) Hev.
  pose proof (jge_below s e Hlt) as Hge.
  destruct q as [md vr pl ed ts te du pr ct jb up]. cbn in *. subst.
  destruct v as [vc vd vp]. cbn in Hc. subst vc.
  destruct j as [js je jt jc jl]. cbn in Hl, He. subst jl je.
  destruct ev as [time| | |b|u n]; try contradiction.
  - cbn. unfold handleTimeUpdate. cbn. rewrite Hge. cbn.
    split; [|now split]. do 2 eexists. now repeat split.
  - cbn. unfold stopHandler. cbn. rewrite Hge. cbn.
    split; [|now split]. do 2 eexists. now repeat split.
  - unfold step, ondataavailable. cbn [job].
    destruct (0 <? Types.size b)%nat; cbn;
      (split; [|now split]); do 2 eexists; now repeat split.
Qed.

(** X23. The trim only stops if its stop handler sees the end of the window.  In
    edit mode, when the video reaches the end and the registered stop
    handler runs first, it pauses the video and stops listening (the
    recorder is told to stop).  When the component's own time-update handler
    runs first, it rewinds the video to the start of the window, so the stop
    handler sees a time before the end and keeps waiting; and as long as the
    video does not move again and the recorder does not stop by itself, no
    later time update or chunk changes that: nothing is handed out. *)
Theorem stop_handler_needs_to_run_first (p : Preview) (v : Video.HTMLVideoElement)
  (s e t : Q) (rest : list Event) :
  job p = None ->
  videoRef p = Some v ->
  isEditing p = true ->
  trimStart p = Fin s -> trimEnd p = Fin e ->
  s < e -> e <= t ->
  Forall noPlayback rest ->
  let q := saveTrim true None p in
  (exists j v', job (run [Playback (Fin t); StopCheck] q) = Some j
                /\ listening j = false
                /\ videoRef (run [Playback (Fin t); StopCheck] q) = Some v'
                /\ Video.paused v' = true)
  /\ stalled s e (run ([Playback (Fin t); TimeUpdate; StopCheck] ++ rest) q)
  /\ updates (run ([Playback (Fin t); TimeUpdate; StopCheck] ++ rest) q) = updates p.
Proof.
  intros Hj Hv Hed Hs He Hlt Hle Hrest q.
  pose proof (jge_below s e Hlt) as Hb. pose proof (jge_above t e Hle) as Ha.
  destruct p as [md vr pl ed ts te du pr ct jb up]. cbn in Hj, Hv, Hed, Hs, He.
  subst jb vr ed ts te. destruct v as [vc vd vp].
  subst q. split.
  - cbn -[jge]. unfold stopHandler. cbn -[jge]. rewrite Ha. cbn.
    do 2 eexists. now repeat split.
  - unfold run. rewrite fold_left_app.
    match goal with |- context [fold_left step rest ?x] => set (q1 := x) end.
    assert (H1 : stalled s e q1 /\ isEditing q1 = true /\ updates q1 = up).
    { subst q1. cbn -[jge]. unfold handleTimeUpdate. cbn -[jge]. rewrite Ha.
      cbn -[jge]. unfold stopHandler. cbn -[jge]. rewrite Hb. cbn.
      split; [|now split]. do 2 eexists. now repeat split. }
    clearbody q1. revert q1 H1.
    induction Hrest as [|ev rest Hev _ IH]; intros q1 (S1 & E1 & U1).
    + now split.
    + cbn [fold_left].
      destruct (stalled_step s e q1 ev Hlt E1 S1 Hev) as (S2 & E2 & U2).
      apply IH. repeat split; congruence.
Qed.

Lemma stop_handler_needs_to_run_first_witness :
  let q := saveTrim true None Scenarios.editing in
  (exists j v', job (run [Playback (Fin 10); StopCheck] q) = Some j
                /\ listening j = false
                /\ videoRef (run [Playback (Fin 10); StopCheck] q) = Some v'
                /\ Video.paused v' = true)
  /\ stalled 0 (10000 / 1000)
       (run ([Playback (Fin 10); TimeUpdate; StopCheck]
               ++ [DataAvailable Scenarios.chunkA; TimeUpdate; StopCheck]) q)
  /\ updates (run ([Playback (Fin 10); TimeUpdate; StopCheck]
                     ++ [DataAvailable Scenarios.chunkA; TimeUpdate; StopCheck]) q)
     = [].
Proof.
  apply (stop_handler_needs_to_run_first Scenarios.editing
           {| Video.currentTime := Fin 0; Video.duration := PInf; Video.paused := true |}
           0 (10000 / 1000) 10
           [DataAvailable Scenarios.chunkA; TimeUpdate; StopCheck]).
  - reflexivity.
  - reflexivity.
  - reflexivity.
  - reflexivity.
  - reflexivity.
  - reflexivity.
  - discriminate.
  - repeat constructor.
Defined.

End EditorFacts.

(** ** The floating widgets *)
Module WidgetsFacts.

Import JSNum Widgets.
Local Open Scope Q_scope.

Lemma moves_keep_offset (ox oy : Q) (moves : list MouseEvent) :
  Forall isMove moves ->
  forall w : Widget,
    isDragging w = true -> dragOffset w = pointAt ox oy ->
    isDragging (fold_left handle moves w) = true
    /\ dragOffset (fold_left handle moves w) = pointAt ox oy.
Proof.
  induction 1 as [|ev moves Hev _ IH]; intros w Hd Ho; [now split|].
  cbn [fold_left]. apply IH.
  - destruct ev; try contradiction. cbn. unfold handleMouseMove. now rewrite Hd.
  - destruct ev; try contradiction. cbn. unfold handleMouseMove. now rewrite Hd.
Qed.

(** X24. A drag moves the widget by exactly the way of the pointer: grabbed at
    [(cx, cy)] while at [(px, py)] and moved, through any intermediate
    positions, to [(mx, my)], the widget is at
    [(px + (mx - cx), py + (my - cy))]; and once the button is released,
    further moves leave it there. *)
Theorem drag_follows_pointer (px py cx cy mx my ux uy : Q) (moves : list MouseEvent)
  (w : Widget) :
  position w = pointAt px py ->
  Forall isMove moves ->
  let dragged :=
    fold_left handle (Down (pointAt cx cy) :: moves ++ [Move (pointAt mx my)]) w in
  finite (position dragged) (px + (mx - cx)) (py + (my - cy))
  /\ position (fold_left handle [Up; Move (pointAt ux uy)] dragged) = position dragged.
Proof.
  intros Hp Hm dragged. subst dragged. cbn [fold_left].
  rewrite fold_left_app. cbn [fold_left handle].
  destruct (moves_keep_offset (cx - px) (cy - py) moves Hm (handleMouseDown (pointAt cx cy) w))
    as (Hd & Ho).
  { reflexivity. }
  { unfold handleMouseDown. rewrite Hp. reflexivity. }
  set (w1 := fold_left handle moves (handleMouseDown (pointAt cx cy) w)) in *.
  unfold handleMouseMove at 1 2. rewrite Hd, Ho. cbn.
  split; [|reflexivity].
  do 2 eexists. repeat split; ring.
Qed.

Lemma drag_follows_pointer_witness :
  let dragged :=
    fold_left handle
      (Down (pointAt 30 40) :: [Move (pointAt 500 (-7))] ++ [Move (pointAt 130 90)])
      {| position := pointAt 20 20; isDragging := false; dragOffset := pointAt 0 0 |} in
  finite (position dragged) (20 + (130 - 30)) (20 + (90 - 40))
  /\ position (fold_left handle [Up; Move (pointAt 1 1)] dragged) = position dragged.
Proof.
  apply (drag_follows_pointer 20 20 30 40 130 90 1 1 [Move (pointAt 500 (-7))]).
  - reflexivity.
  - repeat constructor. now exists 500, (-7).
Defined.

Lemma clamp_idem (c v : Q) :
  0 <= c -> Qmin (Qmax 0 (Qmin (Qmax 0 v) c)) c == Qmin (Qmax 0 v) c.
Proof.
  intro Hc.
  pose proof (Q.le_min_r (Qmax 0 v) c) as A1. pose proof (Q.le_max_l 0 v) as A2.
  assert (0 <= Qmin (Qmax 0 v) c) as A3 by (apply Q.min_glb; assumption).
  rewrite (Q.max_r 0 _ A3). now apply Q.min_l.
Qed.

(** X25. On a resize the floating controls are brought back into the window:
    with room for them (at least 280 by 80) they end up with
    [0 <= x <= innerWidth - 280] and [0 <= y <= innerHeight - 80], and a
    second resize at the same size moves nothing.  In a narrower window the
    upper bound wins over the lower one: x is [innerWidth - 280], left of
    the window. *)
Theorem resize_keeps_controls_in_window (iw ih : Z) (px py : Q) (w : Widget) :
  position w = pointAt px py ->
  exists a b,
    position (handleResize iw ih w) = pointAt a b
    /\ a <= inject_Z iw - 280 /\ b <= inject_Z ih - 80
    /\ ((280 <= iw)%Z -> 0 <= a)
    /\ ((80 <= ih)%Z -> 0 <= b)
    /\ ((iw < 280)%Z -> a == inject_Z iw - 280)
    /\ ((280 <= iw)%Z -> (80 <= ih)%Z ->
        finite (position (handleResize iw ih (handleResize iw ih w))) a b).
Proof.
  intro Hp. unfold handleResize at 1. rewrite Hp. unfold pointAt, ofZ.
  cbn [position x y jmin jmax jsub jadd jneg].
  set (a := Qmin (Qmax 0 px) (inject_Z iw + - 280)).
  set (b := Qmin (Qmax 0 py) (inject_Z ih + - 80)).
  exists a, b. split; [reflexivity|].
  pose proof (Q.le_min_r (Qmax 0 px) (inject_Z iw + - 280)) as A1.
  pose proof (Q.le_min_r (Qmax 0 py) (inject_Z ih + - 80)) as B1.
  pose proof (Q.le_max_l 0 px) as A2. pose proof (Q.le_max_l 0 py) as B2.
  assert (Ha : (280 <= iw)%Z -> 0 <= a).
  { intro H. rewrite Zle_Qle in H. change (inject_Z 280) with 280 in H.
    subst a. apply Q.min_glb; lra. }
  assert (Hb : (80 <= ih)%Z -> 0 <= b).
  { intro H. rewrite Zle_Qle in H. change (inject_Z 80) with 80 in H.
    subst b. apply Q.min_glb; lra. }
  split; [subst a; lra|]. split; [subst b; lra|].
  split; [exact Ha|]. split; [exact Hb|]. split.
  - intro H. rewrite Zlt_Qlt in H. change (inject_Z 280) with 280 in H.
    subst a. rewrite Q.min_r; lra.
  - intros Hw Hh.
    rewrite Zle_Qle in Hw, Hh.
    change (inject_Z 280) with 280 in Hw. change (inject_Z 80) with 80 in Hh.
    unfold handleResize. rewrite Hp. unfold pointAt, ofZ.
    cbn [position x y jmin jmax jsub jadd jneg].
    do 2 eexists. split; [reflexivity|]. split; [reflexivity|]. split.
    + apply (clamp_idem (inject_Z iw + - 280) px). lra.
    + apply (clamp_idem (inject_Z ih + - 80) py). lra.
Qed.

Lemma resize_keeps_controls_in_window_witness :
  exists a b,
    position (handleResize 1000 600
                {| position := pointAt 990 (-5); isDragging := false; dragOffset := pointAt 0 0 |})
    = pointAt a b
    /\ a <= inject_Z 1000 - 280 /\ b <= inject_Z 600 - 80
    /\ ((280 <= 1000)%Z -> 0 <= a)
    /\ ((80 <= 600)%Z -> 0 <= b)
    /\ ((1000 < 280)%Z -> a == inject_Z 1000 - 280)
    /\ ((280 <= 1000)%Z -> (80 <= 600)%Z ->
        finite (position (handleResize 1000 600
                            (handleResize 1000 600
                               {| position := pointAt 990 (-5); isDragging := false;
                                  dragOffset := pointAt 0 0 |}))) a b).
Proof.
  apply (resize_keeps_controls_in_window 1000 600 990 (-5)). reflexivity.
Defined.

End WidgetsFacts.
